(** * Memci: the Python executor service (python_service/executor.py)

    A shallow embedding of the value codec ([protobuf_to_python],
    [python_to_protobuf]) and of the sandboxed executor
    ([PythonExecutorServicer.Execute]), followed by the properties of the
    specification that are stated about them. *)

From Stdlib Require Import ZArith String Ascii List Bool Lia.
From Stdlib Require Import Floats.SpecFloat DecimalString.
From stdpp Require Import base option gmap strings list fin_maps.

Set Warnings "-register-all".

Local Open Scope string_scope.
Local Open Scope Z_scope.

(** ** Exceptions and fallible computations *)

(** A raised exception: its class, whether the class derives from
    [Exception] (so that [except Exception] catches it), and what [str(e)]
    does: return a text, or raise in its turn. *)
Inductive PyExc :=
| mkPyExc (cls : string) (derived : bool) (str : string + PyExc).

Definition exc_class (e : PyExc) : string :=
  match e with
  | mkPyExc cls _ _ => cls
  end.

(** [isinstance(e, Exception)] *)
Definition is_Exception (e : PyExc) : bool :=
  match e with
  | mkPyExc _ derived _ => derived
  end.

(** An exception of a class that derives from [Exception], with its text. *)
Definition mkExc (cls text : string) : PyExc := mkPyExc cls true (inl text).

Inductive Res (A : Type) :=
| Ok (a : A)
| Raise (e : PyExc).
Arguments Ok {A} a.
Arguments Raise {A} e.

#[global] Instance Res_ret : MRet Res := fun A a => Ok a.

#[global] Instance Res_bind : MBind Res := fun A B k m =>
  match m with
  | Ok a => k a
  | Raise e => Raise e
  end.

(** [str(e)] *)
Definition exc_str (e : PyExc) : Res string :=
  match e with
  | mkPyExc _ _ (inl text) => Ok text
  | mkPyExc _ _ (inr e') => Raise e'
  end.

(** ** Native Python values *)

(** A [str] is held as the bytes of its code points in UTF-8, a lone
    surrogate as the three bytes it would take there; [utf8] tells the texts
    without a lone surrogate, which are the ones a string field of a message
    accepts and the only ones a message holds. *)
Definition byte_in (lo hi : N) (c : ascii) : bool :=
  (lo <=? N_of_ascii c)%N && (N_of_ascii c <=? hi)%N.

Fixpoint utf8 (s : string) : bool :=
  match s with
  | EmptyString => true
  | String c1 s1 =>
      if byte_in 0 127 c1 then utf8 s1
      else
        match s1 with
        | EmptyString => false
        | String c2 s2 =>
            if byte_in 194 223 c1 then byte_in 128 191 c2 && utf8 s2
            else
              match s2 with
              | EmptyString => false
              | String c3 s3 =>
                  if (byte_in 224 224 c1 && byte_in 160 191 c2)
                     || (byte_in 225 236 c1 && byte_in 128 191 c2)
                     || (byte_in 237 237 c1 && byte_in 128 159 c2)
                     || (byte_in 238 239 c1 && byte_in 128 191 c2)
                  then byte_in 128 191 c3 && utf8 s3
                  else
                    match s3 with
                    | EmptyString => false
                    | String c4 s4 =>
                        ((byte_in 240 240 c1 && byte_in 144 191 c2)
                         || (byte_in 241 243 c1 && byte_in 128 191 c2)
                         || (byte_in 244 244 c1 && byte_in 128 143 c2))
                        && byte_in 128 191 c3 && byte_in 128 191 c4 && utf8 s4
                    end
              end
        end
  end.

(** What calling an object does, for the callables the fragment of the
    interpreter below follows: a built-in of the allow-list, by its name, or
    a host callable of one argument that keeps its argument in a cell of the
    host and returns what the cell held before. *)
Inductive Callable :=
| Builtin (name : string)
| HostSwap (cell : string).

(** An object of a type the codec has no branch for (tuple, set, bytes,
    function, class, ...): its type name, what [str()] does for it (return
    a text, or raise), and what calling it does, when the fragment of the
    interpreter follows it. *)
Record PyObj := mkPyObj {
  ob_type : string;
  ob_str : Res string;
  ob_call : option Callable
}.

(** An object whose [str()] returns the text, named as a built-in or not. *)
Definition mkObj (type text : string) (builtin : option string) : PyObj :=
  mkPyObj type (Ok text) (Builtin <$> builtin).

(** Native values are finite trees: a list or a dict that contains itself
    is not among them. *)
Inductive PyVal :=
| PyNone
| PyStr (s : string)
| PyInt (z : Z)
| PyFloat (f : spec_float)
| PyBool (b : bool)
| PyList (items : list PyVal)
| PyDict (items : list (PyVal * PyVal))
| PyObject (o : PyObj).

(** The classes the codec tests with [isinstance]. *)
Inductive PyType :=
| ty_NoneType | ty_str | ty_int | ty_float | ty_bool | ty_list | ty_dict
| ty_other (name : string).

Definition type_of (value : PyVal) : PyType :=
  match value with
  | PyNone => ty_NoneType
  | PyStr _ => ty_str
  | PyInt _ => ty_int
  | PyFloat _ => ty_float
  | PyBool _ => ty_bool
  | PyList _ => ty_list
  | PyDict _ => ty_dict
  | PyObject o => ty_other (ob_type o)
  end.

(** [issubclass]: every class is a subclass of itself, and [bool] is a
    subclass of [int]. *)
Definition issubclass (c d : PyType) : bool :=
  match c, d with
  | ty_NoneType, ty_NoneType | ty_str, ty_str | ty_int, ty_int
  | ty_float, ty_float | ty_bool, ty_bool | ty_list, ty_list
  | ty_dict, ty_dict => true
  | ty_bool, ty_int => true
  | ty_other a, ty_other b => String.eqb a b
  | _, _ => false
  end.

Definition isinstance (value : PyVal) (cls : PyType) : bool :=
  issubclass (type_of value) cls.

(** ** Wire values: the [Value] message of proto/executor.proto *)

(** Modelled from the spec: the generated module [executor_pb2] is not part
    of the sources. [Value] is a message with one oneof group, ["value"],
    whose members are [str_value], [int_value] (64-bit signed),
    [float_value] (double), [bool_value], [null_value], [list_value] (a
    message with a repeated field [values]) and [map_value] (a message with a
    string-keyed map field [fields]). A freshly constructed message has no
    member of the group set. The fields of a map are listed in the order
    [items()] yields them, which the runtime does not fix; in a message the
    keys of a map are distinct and a string is valid text ([utf8]). *)
Inductive Value :=
| Value_unset
| str_value (s : string)
| int_value (z : Z)
| float_value (f : spec_float)
| bool_value (b : bool)
| null_value
| list_value (values : list Value)
| map_value (fields : list (string * Value)).

(** [value.WhichOneof("value")]: the name of the member that is set. *)
Definition WhichOneof (value : Value) : option string :=
  match value with
  | Value_unset => None
  | str_value _ => Some "str_value"
  | int_value _ => Some "int_value"
  | float_value _ => Some "float_value"
  | bool_value _ => Some "bool_value"
  | null_value => Some "null_value"
  | list_value _ => Some "list_value"
  | map_value _ => Some "map_value"
  end.

(** [value.list_value.values]: reading a message-typed member that is not
    set gives its default (empty) instance and leaves the group as it is. *)
Definition get_values (value : Value) : list Value :=
  match value with
  | list_value values => values
  | _ => []
  end.

Definition int64_min : Z := - 2 ^ 63.
Definition int64_max : Z := 2 ^ 63 - 1.

Definition in_int64 (z : Z) : bool := (int64_min <=? z) && (z <=? int64_max).

(** [value is None] *)
Definition is_None (value : PyVal) : bool :=
  match value with
  | PyNone => true
  | _ => false
  end.

(** The payload of a [str], of a [float], of a [bool]. *)
Definition str_of (value : PyVal) : string :=
  match value with
  | PyStr s => s
  | _ => EmptyString
  end.

Definition float_of (value : PyVal) : spec_float :=
  match value with
  | PyFloat f => f
  | _ => S754_zero false
  end.

Definition bool_of (value : PyVal) : bool :=
  match value with
  | PyBool b => b
  | _ => false
  end.

(** The integer an instance of [int] stands for, as the integer field
    setter takes it through [__index__]: [True] is 1 and [False] is 0. *)
Definition int_index (value : PyVal) : Z :=
  match value with
  | PyInt z => z
  | PyBool b => Z.b2z b
  | _ => 0
  end.

(** The decimal text of an integer, as [str] and [%d] give it. *)
Definition decimal (z : Z) : string := NilZero.string_of_int (Z.to_int z).

(** [result.int_value = z]: an [int64] field refuses what does not fit. *)
Definition set_int_value (z : Z) : Res Value :=
  if in_int64 z then Ok (int_value z)
  else Raise (mkExc "ValueError" ("Value out of range: " +:+ decimal z)).

(** [result.str_value = s]: a string field refuses a text with a lone
    surrogate (the text of the exception, which names the character and its
    position, is shortened). *)
Definition surrogates_not_allowed : PyExc :=
  mkExc "UnicodeEncodeError"
    "'utf-8' codec can't encode characters: surrogates not allowed".

Definition set_str_value (s : string) : Res Value :=
  if utf8 s then Ok (str_value s) else Raise surrogates_not_allowed.

(** [result.list_value.values.append(v)]: appending to the repeated field
    marks [list_value] as the member that is set. *)
Definition values_append (result : Value) (v : Value) : Value :=
  list_value (get_values result ++ [v]).

(** [result.map_value.fields[k] = v] with [v] a message: the runtime first
    takes the key, which has to be text ([str], or [bytes], taken here as
    valid), and then refuses the assignment, because the values of the map
    are messages (an entry of such a map is filled through [fields[k]], with
    [CopyFrom] or by setting its members). The texts of the exceptions
    depend on the runtime and are shortened. *)
Definition fields_setitem (result : Value) (k : PyVal) (v : Value) : Res Value :=
  match k with
  | PyStr s =>
      if utf8 s then Raise (mkExc "ValueError" "Message objects may not be assigned")
      else Raise surrogates_not_allowed
  | PyObject o =>
      if String.eqb (ob_type o) "bytes"
      then Raise (mkExc "ValueError" "Message objects may not be assigned")
      else Raise (mkExc "TypeError" "bad argument type for built-in operation")
  | _ => Raise (mkExc "TypeError" "bad argument type for built-in operation")
  end.

(** ** The value codec *)

(** [d[k] = v] on a native dict with a string key: replaces the value of an
    existing key in place, appends a new key at the end. *)
Fixpoint dict_setitem (k : string) (v : PyVal) (d : list (PyVal * PyVal))
  : list (PyVal * PyVal) :=
  match d with
  | [] => [(PyStr k, v)]
  | (PyStr k', v') :: d' =>
      if String.eqb k k' then (PyStr k', v) :: d'
      else (PyStr k', v') :: dict_setitem k v d'
  | kv :: d' => kv :: dict_setitem k v d'
  end.

Fixpoint protobuf_to_python (value : Value) : PyVal :=
  match value with
  | str_value s => PyStr s
  | int_value z => PyInt z
  | float_value f => PyFloat f
  | bool_value b => PyBool b
  | null_value => PyNone
  | list_value values => PyList (List.map protobuf_to_python values)
  | map_value fields =>
      PyDict (fold_left
                (fun d kv => dict_setitem (fst kv) (protobuf_to_python (snd kv)) d)
                fields [])
  | Value_unset => PyNone
  end.

(** [python_to_protobuf]: the chain of tests of the source, in its order.
    The payload of a scalar is read with the accessors above; the two
    container branches and the fallback bind the payload by a match on the
    value, whose last case stands for the scalars, which the tests above it
    have taken. *)
Fixpoint python_to_protobuf (value : PyVal) : Res Value :=
  let result := Value_unset in
  if is_None value then Ok null_value
  else if isinstance value ty_str then set_str_value (str_of value)
  else if isinstance value ty_int then set_int_value (int_index value)
  else if isinstance value ty_float then Ok (float_value (float_of value))
  else if isinstance value ty_bool then Ok (bool_value (bool_of value))
  else
    match value with
    | PyList items =>
        (* isinstance(value, list) *)
        fold_left
          (fun acc item =>
             result ← acc;
             v ← python_to_protobuf item;
             Ok (values_append result v))
          items (Ok result)
    | PyDict items =>
        (* isinstance(value, dict) *)
        fold_left
          (fun acc kv =>
             result ← acc;
             v ← python_to_protobuf (snd kv);
             fields_setitem result (fst kv) v)
          items (Ok result)
    | PyObject o =>
        (* else: result.str_value = str(value) *)
        text ← ob_str o;
        set_str_value text
    | _ => Ok result
    end.

(** ** The evaluation scope *)

(** [d[k]] on a native dict with a string key. *)
Fixpoint dict_get (d : list (PyVal * PyVal)) (k : string) : option PyVal :=
  match d with
  | [] => None
  | (PyStr k', v) :: d' => if String.eqb k k' then Some v else dict_get d' k
  | _ :: d' => dict_get d' k
  end.

(** The names of the built-in table of [Execute], in the order of the
    source. *)
Definition builtin_names : list string :=
  ["print"; "len"; "range"; "str"; "int"; "float"; "bool"; "list"; "dict";
   "tuple"; "set"; "sum"; "min"; "max"; "abs"; "all"; "any"; "enumerate";
   "zip"; "sorted"; "reversed"; "map"; "filter"].

(** The object bound to a built-in name: ["print"] is the lambda that writes
    to the output buffer of the call (the address in its text is left out),
    the others are the interpreter's own functions and classes. *)
Definition builtin_object (name : string) : PyObj :=
  if String.eqb name "print" then
    mkObj "function"
      "<function PythonExecutorServicer.Execute.<locals>.<lambda>>"
      (Some name)
  else if existsb (String.eqb name)
            ["len"; "sum"; "min"; "max"; "abs"; "all"; "any"; "sorted"] then
    mkObj "builtin_function_or_method"
      ("<built-in function " +:+ name +:+ ">") (Some name)
  else
    mkObj "type" ("<class '" +:+ name +:+ "'>") (Some name).

Definition builtins_table : list (PyVal * PyVal) :=
  List.map (fun name => (PyStr name, PyObject (builtin_object name)))
    builtin_names.

(** ** A fragment of Python, for [exec]

    The interpreter itself is not part of the repository. The executor is
    stated over an arbitrary interpreter (section [Executor] below); the
    fragment defined here gives the concrete runs: one-line statements
    separated by newlines or semicolons, which are [pass], [import m],
    [assert e], [x = e] and [e], over the expressions [None], [True],
    [False], decimal integers, quoted strings without escapes, names, list
    displays, [+], [/], calls and parentheses. Whatever is outside the
    fragment has no outcome here ([None]); so has a run that does not end. *)

Inductive expr :=
| ENone
| EBool (b : bool)
| EInt (z : Z)
| EStr (s : string)
| EName (id : string)
| EList (elts : list expr)
| EAdd (a b : expr)
| EDiv (a b : expr)
| ECall (func : expr) (args : list expr).

Inductive stmt :=
| SPass
| SImport (module : string)
| SAssert (test : expr)
| SAssign (target : string) (value : expr)
| SExpr (value : expr).

Inductive token :=
| T_NAME (id : string)
| T_NUMBER (z : Z)
| T_STRING (s : string)
| T_OP (c : ascii)
| T_NEWLINE.

Definition keywords : list string :=
  ["False"; "None"; "True"; "and"; "as"; "assert"; "async"; "await"; "break";
   "class"; "continue"; "def"; "del"; "elif"; "else"; "except"; "finally";
   "for"; "from"; "global"; "if"; "import"; "in"; "is"; "lambda";
   "nonlocal"; "not"; "or"; "pass"; "raise"; "return"; "try"; "while";
   "with"; "yield"; "__debug__"].

Definition is_keyword (id : string) : bool := existsb (String.eqb id) keywords.

Definition between (lo hi : nat) (c : ascii) : bool :=
  (lo <=? nat_of_ascii c)%nat && (nat_of_ascii c <=? hi)%nat.

Definition is_digit (c : ascii) : bool := between 48 57 c.

Definition is_name_start (c : ascii) : bool :=
  between 97 122 c || between 65 90 c || Ascii.eqb c "_".

Definition is_name_char (c : ascii) : bool := is_name_start c || is_digit c.

Definition is_quote (c : ascii) : bool := Ascii.eqb c "'" || Ascii.eqb c "034".

Definition is_op (c : ascii) : bool :=
  existsb (Ascii.eqb c) ["="; "+"; "/"; "("; ")"; "["; "]"; ","; ";"]%char.

Definition is_newline (c : ascii) : bool := Ascii.eqb c "010".

Definition digit_value (c : ascii) : Z := Z.of_nat (nat_of_ascii c) - 48.

(** What the tokenizer is in the middle of: nothing (at the beginning of a
    line or not), a name, a number (whose first digit was 0 or not), a
    string opened by a quote. *)
Inductive lex_state :=
| LexStart (bol : bool)
| LexName (acc : string)
| LexNumber (zero : bool) (acc : Z)
| LexString (quote : ascii) (acc : string).

Definition snoc (s : string) (c : ascii) : string := s +:+ String c EmptyString.

(** The token that ends with the input, if the state allows the end. *)
Definition lex_end (st : lex_state) : option (list token) :=
  match st with
  | LexStart _ => Some []
  | LexName acc => Some [T_NAME acc]
  | LexNumber _ z => Some [T_NUMBER z]
  | LexString _ _ => None
  end.

Fixpoint tokenize (st : lex_state) (s : string) : option (list token) :=
  match s with
  | EmptyString => lex_end st
  | String c rest =>
      (* a character that begins a token *)
      let start (bol : bool) : option (list token) :=
        if is_name_start c then tokenize (LexName (String c EmptyString)) rest
        else if is_digit c then
          tokenize (LexNumber (Ascii.eqb c "0") (digit_value c)) rest
        else if is_quote c then tokenize (LexString c EmptyString) rest
        else if is_op c then cons (T_OP c) <$> tokenize (LexStart false) rest
        else if is_newline c then cons T_NEWLINE <$> tokenize (LexStart true) rest
        else if Ascii.eqb c " " then
          if bol then None else tokenize (LexStart false) rest
        else None in
      match st with
      | LexStart bol => start bol
      | LexName acc =>
          if is_name_char c then tokenize (LexName (snoc acc c)) rest
          else if is_quote c then None
          else cons (T_NAME acc) <$> start false
      | LexNumber zero z =>
          if is_digit c then
            if zero then None
            else tokenize (LexNumber false (10 * z + digit_value c)) rest
          else if is_name_char c then None
          else cons (T_NUMBER z) <$> start false
      | LexString q acc =>
          if Ascii.eqb c q then cons (T_STRING acc) <$> tokenize (LexStart false) rest
          else if between 32 126 c && negb (Ascii.eqb c "\") then
            tokenize (LexString q (snoc acc c)) rest
          else None
      end
  end.

(** A name that may be used as an identifier. *)
Definition identifier (id : string) : option string :=
  if is_keyword id then None else Some id.

(** The recursive-descent parser of expressions; [fuel] bounds the depth of
    the descent, and a parse that exhausts it has no outcome. *)
Fixpoint parse_expr (fuel : nat) (ts : list token) {struct fuel}
  : option (expr * list token) :=
  match fuel with
  | O => None
  | S fuel =>
      '(a, ts) ← parse_term fuel ts;
      parse_expr_rest fuel a ts
  end
with parse_expr_rest (fuel : nat) (a : expr) (ts : list token) {struct fuel}
  : option (expr * list token) :=
  match fuel with
  | O => None
  | S fuel =>
      match ts with
      | T_OP "+" :: ts =>
          '(b, ts) ← parse_term fuel ts;
          parse_expr_rest fuel (EAdd a b) ts
      | _ => Some (a, ts)
      end
  end
with parse_term (fuel : nat) (ts : list token) {struct fuel}
  : option (expr * list token) :=
  match fuel with
  | O => None
  | S fuel =>
      '(a, ts) ← parse_primary fuel ts;
      parse_term_rest fuel a ts
  end
with parse_term_rest (fuel : nat) (a : expr) (ts : list token) {struct fuel}
  : option (expr * list token) :=
  match fuel with
  | O => None
  | S fuel =>
      match ts with
      | T_OP "/" :: ts =>
          '(b, ts) ← parse_primary fuel ts;
          parse_term_rest fuel (EDiv a b) ts
      | _ => Some (a, ts)
      end
  end
with parse_primary (fuel : nat) (ts : list token) {struct fuel}
  : option (expr * list token) :=
  match fuel with
  | O => None
  | S fuel =>
      '(a, ts) ← parse_atom fuel ts;
      parse_calls fuel a ts
  end
with parse_calls (fuel : nat) (func : expr) (ts : list token) {struct fuel}
  : option (expr * list token) :=
  match fuel with
  | O => None
  | S fuel =>
      match ts with
      | T_OP "(" :: T_OP ")" :: ts => parse_calls fuel (ECall func []) ts
      | T_OP "(" :: ts =>
          '(args, ts) ← parse_exprs fuel ts;
          match ts with
          | T_OP ")" :: ts => parse_calls fuel (ECall func args) ts
          | _ => None
          end
      | _ => Some (func, ts)
      end
  end
with parse_exprs (fuel : nat) (ts : list token) {struct fuel}
  : option (list expr * list token) :=
  match fuel with
  | O => None
  | S fuel =>
      '(e, ts) ← parse_expr fuel ts;
      match ts with
      | T_OP "," :: ts =>
          '(es, ts) ← parse_exprs fuel ts;
          Some (e :: es, ts)
      | _ => Some ([e], ts)
      end
  end
with parse_atom (fuel : nat) (ts : list token) {struct fuel}
  : option (expr * list token) :=
  match fuel with
  | O => None
  | S fuel =>
      match ts with
      | T_NUMBER z :: ts => Some (EInt z, ts)
      | T_STRING s :: ts => Some (EStr s, ts)
      | T_NAME id :: ts =>
          if String.eqb id "None" then Some (ENone, ts)
          else if String.eqb id "True" then Some (EBool true, ts)
          else if String.eqb id "False" then Some (EBool false, ts)
          else id ← identifier id; Some (EName id, ts)
      | T_OP "[" :: T_OP "]" :: ts => Some (EList [], ts)
      | T_OP "[" :: ts =>
          '(es, ts) ← parse_exprs fuel ts;
          match ts with
          | T_OP "]" :: ts => Some (EList es, ts)
          | _ => None
          end
      | T_OP "(" :: ts =>
          '(e, ts) ← parse_expr fuel ts;
          match ts with
          | T_OP ")" :: ts => Some (e, ts)
          | _ => None
          end
      | _ => None
      end
  end.

(** One simple statement. *)
Definition parse_stmt (fuel : nat) (ts : list token) : option (stmt * list token) :=
  match ts with
  | T_NAME "pass" :: ts => Some (SPass, ts)
  | T_NAME "import" :: T_NAME m :: ts => m ← identifier m; Some (SImport m, ts)
  | T_NAME "assert" :: ts => '(e, ts) ← parse_expr fuel ts; Some (SAssert e, ts)
  | T_NAME id :: T_OP "=" :: ts =>
      id ← identifier id;
      '(e, ts) ← parse_expr fuel ts;
      Some (SAssign id e, ts)
  | _ => '(e, ts) ← parse_expr fuel ts; Some (SExpr e, ts)
  end.

(** A sequence of lines; a line is empty or holds simple statements
    separated by semicolons, with an optional semicolon at its end. *)
Fixpoint parse_lines (fuel : nat) (ts : list token) {struct fuel}
  : option (list stmt) :=
  match fuel with
  | O => None
  | S fuel' =>
      match ts with
      | [] => Some []
      | T_NEWLINE :: ts => parse_lines fuel' ts
      | _ =>
          '(s, ts) ← parse_stmt fuel ts;
          match ts with
          | [] => Some [s]
          | T_NEWLINE :: ts | T_OP ";" :: ts => cons s <$> parse_lines fuel' ts
          | _ => None
          end
      end
  end.

(** [compile(code, "<string>", "exec")] on the fragment. *)
Definition parse (code : string) : option (list stmt) :=
  ts ← tokenize (LexStart true) code;
  parse_lines (8 * (length ts + 1)) ts.

(** The outcome of a call: [None] when there is none (the run does not end,
    or the code is outside the fragment), otherwise a normal end or a raised
    exception. *)
Definition Outcome (A : Type) : Type := option (Res A).

(** What a run of code can change besides its globals: the text written to
    the output buffer of the call, and the cells of the host, which the
    registered callables hold on to and all calls share. *)
Record State := mkState {
  st_output : string;
  st_host : gmap string PyVal
}.

(** Evaluation threads the state; what it changed stays changed when it
    raises. *)
Definition Run (A : Type) : Type := State -> option (Res A * State).

Definition ret {A} (a : A) : Run A := fun st => Some (Ok a, st).

Definition raise {A} (e : PyExc) : Run A := fun st => Some (Raise e, st).

(** Outside the fragment. *)
Definition unmodelled {A} : Run A := fun _ => None.

Definition and_then {A B} (m : Run A) (k : A -> Run B) : Run B :=
  fun st =>
    match m st with
    | None => None
    | Some (Raise e, st') => Some (Raise e, st')
    | Some (Ok a, st') => k a st'
    end.

(** [file.write(text)] on the output buffer. *)
Definition write (text : string) : Run unit :=
  fun st => Some (Ok tt, mkState (st_output st +:+ text) (st_host st)).

(** Name resolution at module level: the globals, then the dict bound to
    [__builtins__] in the globals. *)
Definition load_name (globals : gmap string PyVal) (id : string) : Run PyVal :=
  match globals !! id with
  | Some v => ret v
  | None =>
      match globals !! "__builtins__" with
      | Some (PyDict table) =>
          match dict_get table id with
          | Some v => ret v
          | None =>
              raise (mkExc "NameError" ("name '" +:+ id +:+ "' is not defined"))
          end
      | _ => unmodelled
      end
  end.

(** The integer an [int] or a [bool] stands for in arithmetic. *)
Definition as_int (v : PyVal) : option Z :=
  match v with
  | PyInt z => Some z
  | PyBool b => Some (Z.b2z b)
  | _ => None
  end.

Definition binary_add (x y : PyVal) : Run PyVal :=
  match x, y with
  | PyStr a, PyStr b => ret (PyStr (a +:+ b))
  | PyList a, PyList b => ret (PyList (a ++ b))
  | _, _ =>
      match as_int x, as_int y with
      | Some a, Some b => ret (PyInt (a + b))
      | _, _ => unmodelled
      end
  end.

(** True division: only the division of an integer by zero is in the
    fragment. *)
Definition binary_truediv (x y : PyVal) : Run PyVal :=
  match as_int x, as_int y with
  | Some _, Some 0 => raise (mkExc "ZeroDivisionError" "division by zero")
  | _, _ => unmodelled
  end.

(** [str(v)], for the values whose text is in the fragment. *)
Definition str_text (v : PyVal) : option string :=
  match v with
  | PyNone => Some "None"
  | PyStr s => Some s
  | PyInt z => Some (decimal z)
  | PyBool b => Some (if b then "True" else "False")
  | _ => None
  end.

(** [" ".join(str(a) for a in args)] *)
Fixpoint print_text (args : list PyVal) : option string :=
  match args with
  | [] => Some ""
  | [a] => str_text a
  | a :: rest =>
      s ← str_text a; t ← print_text rest; Some (s +:+ " " +:+ t)
  end.

(** A host callable of one argument that keeps it in a cell and returns what
    the cell held before ([None] at first). *)
Definition host_swap (cell : string) (v : PyVal) : Run PyVal :=
  fun st =>
    Some (Ok (default PyNone (st_host st !! cell)),
          mkState (st_output st) (<[cell := v]> (st_host st))).

(** Calling an object: the [print] of the built-in table, [len] of a list
    and the host callables that swap a cell are in the fragment. *)
Definition call (func : PyVal) (args : list PyVal) : Run PyVal :=
  match func with
  | PyObject o =>
      match ob_call o with
      | Some (Builtin "print") =>
          match print_text args with
          | Some text =>
              and_then (write (text +:+ String "010" EmptyString))
                (fun _ => ret PyNone)
          | None => unmodelled
          end
      | Some (Builtin "len") =>
          match args with
          | [PyList items] => ret (PyInt (Z.of_nat (length items)))
          | _ => unmodelled
          end
      | Some (HostSwap cell) =>
          match args with
          | [v] => host_swap cell v
          | _ => unmodelled
          end
      | _ => unmodelled
      end
  | _ => unmodelled
  end.

(** [bool(v)] *)
Definition truth (v : PyVal) : option bool :=
  match v with
  | PyNone => Some false
  | PyBool b => Some b
  | PyInt z => Some (negb (z =? 0))
  | PyStr s => Some (negb (String.eqb s ""))
  | PyList items => Some (negb (Nat.eqb (length items) 0))
  | PyDict items => Some (negb (Nat.eqb (length items) 0))
  | PyFloat _ => None
  | PyObject _ => None
  end.

Fixpoint eval (globals : gmap string PyVal) (e : expr) : Run PyVal :=
  let eval_all :=
    fix eval_all (es : list expr) : Run (list PyVal) :=
      match es with
      | [] => ret []
      | e :: es =>
          and_then (eval globals e) (fun v =>
          and_then (eval_all es) (fun vs => ret (v :: vs)))
      end in
  match e with
  | ENone => ret PyNone
  | EBool b => ret (PyBool b)
  | EInt z => ret (PyInt z)
  | EStr s => ret (PyStr s)
  | EName id => load_name globals id
  | EList elts => and_then (eval_all elts) (fun vs => ret (PyList vs))
  | EAdd a b =>
      and_then (eval globals a) (fun x =>
      and_then (eval globals b) (fun y => binary_add x y))
  | EDiv a b =>
      and_then (eval globals a) (fun x =>
      and_then (eval globals b) (fun y => binary_truediv x y))
  | ECall func args =>
      and_then (eval globals func) (fun f =>
      and_then (eval_all args) (fun vs => call f vs))
  end.

(** One statement, from the globals to the globals it leaves. *)
Definition exec_stmt (s : stmt) (globals : gmap string PyVal)
  : Run (gmap string PyVal) :=
  match s with
  | SPass => ret globals
  | SImport _ =>
      (* the import statement calls [__import__] of the built-in table *)
      match globals !! "__builtins__" with
      | Some (PyDict table) =>
          match dict_get table "__import__" with
          | None => raise (mkExc "ImportError" "__import__ not found")
          | Some _ => unmodelled
          end
      | _ => unmodelled
      end
  | SAssert test =>
      and_then (eval globals test) (fun v =>
        match truth v with
        | Some true => ret globals
        | Some false => raise (mkExc "AssertionError" "")
        | None => unmodelled
        end)
  | SAssign target value =>
      and_then (eval globals value) (fun v => ret (<[target := v]> globals))
  | SExpr value => and_then (eval globals value) (fun _ => ret globals)
  end.

Fixpoint exec_stmts (body : list stmt) (globals : gmap string PyVal)
  : Run (gmap string PyVal) :=
  match body with
  | [] => ret globals
  | s :: body => and_then (exec_stmt s globals) (exec_stmts body)
  end.

(** [exec(code, globals)], in a state that holds the output buffer the
    [print] of the scope writes to: the globals and the state it leaves. *)
Definition py_exec (code : string) (globals : gmap string PyVal)
  : Run (gmap string PyVal) :=
  match parse code with
  | Some body => exec_stmts body globals
  | None => unmodelled
  end.

(** ** The executor service *)

(** Modelled from the spec: the messages of [executor_pb2] are not part of
    the sources. An [ExecuteRequest] carries the [code] and the [context], a
    string-keyed map of wire values; an [ExecuteResponse] carries [success],
    [result], [logs] and [error], each at its default (no result, no logs,
    the empty string) unless the constructor call of the source sets it. *)
Record ExecuteRequest := mkRequest {
  code : string;
  context : gmap string Value
}.

Record ExecuteResponse := mkResponse {
  success : bool;
  result : option Value;
  logs : list string;
  error : string
}.

(** [executor_pb2.ExecuteResponse(...)]: the constructor stores its
    arguments in the fields of the message, and the string fields refuse a
    text with a lone surrogate. *)
Definition new_ExecuteResponse (success : bool) (result : option Value)
    (logs : list string) (error : string) : Res ExecuteResponse :=
  if forallb utf8 logs && utf8 error
  then Ok (mkResponse success result logs error)
  else Raise surrogates_not_allowed.

(** The servicer object: the registry of callables, its only attribute, and
    the cells of the host that the registered callables hold on to (they
    live as long as the servicer and are shared by all its calls). *)
Record PythonExecutorServicer := mkServicer {
  go_functions : gmap string PyVal;
  host_cells : gmap string PyVal
}.

(** [PythonExecutorServicer()] *)
Definition __init__ : PythonExecutorServicer := mkServicer ∅ ∅.

Definition register_go_function (self : PythonExecutorServicer)
    (name : string) (func : PyVal) : PythonExecutorServicer :=
  mkServicer (<[name := func]> (go_functions self)) (host_cells self).

(** The scope [Execute] builds before it runs the code: the built-in table
    under [__builtins__], then every registered callable under its name,
    then every context entry, decoded, under its key. *)
Definition exec_globals (self : PythonExecutorServicer)
    (request : ExecuteRequest) : gmap string PyVal :=
  let exec_globals : gmap string PyVal :=
    {[ "__builtins__" := PyDict builtins_table ]} in
  let exec_globals :=
    map_fold (fun name func (g : gmap string PyVal) => <[name := func]> g)
      exec_globals (go_functions self) in
  map_fold
    (fun key value (g : gmap string PyVal) =>
       <[key := protobuf_to_python value]> g)
    exec_globals (context request).

(** The [except Exception as e] block: its response is built from [str(e)],
    and what [str(e)] or the constructor of the response raises there is
    raised to the caller, as is an exception the clause does not catch (the
    calls to the logger are left out: the logger keeps its own errors). *)
Definition Execute_except (e : PyExc) : Res ExecuteResponse :=
  if is_Exception e then
    text ← exc_str e;
    new_ExecuteResponse false None [] text
  else Raise e.

Section Executor.

(** [exec]: any interpreter, from the code, the globals and the state to
    the globals and the state the run leaves. *)
Variable exec : string -> gmap string PyVal -> Run (gmap string PyVal).

(** The body of the [try] block, with the cells of the host as it leaves
    them. *)
Definition Execute_try (self : PythonExecutorServicer)
    (request : ExecuteRequest)
  : option (Res ExecuteResponse * gmap string PyVal) :=
  let output := "" in
  match exec (code request) (exec_globals self request)
          (mkState output (host_cells self)) with
  | None => None
  | Some (Raise e, st) => Some (Raise e, st_host st)
  | Some (Ok globals, st) =>
      let result := default PyNone (globals !! "__result__") in
      Some (value ← python_to_protobuf result;
            new_ExecuteResponse true (Some value) [st_output st] "",
            st_host st)
  end.

(** [Execute]: the [try] block under [except Exception]. No attribute of
    [self] is assigned: the servicer it leaves has the same registry, and
    the cells of the host as the code left them. A call that has no outcome
    does not return; the servicer is then given as it was. *)
Definition Execute (self : PythonExecutorServicer)
    (request : ExecuteRequest)
  : PythonExecutorServicer * Outcome ExecuteResponse :=
  match Execute_try self request with
  | None => (self, None)
  | Some (Ok response, cells) =>
      (mkServicer (go_functions self) cells, Some (Ok response))
  | Some (Raise e, cells) =>
      (mkServicer (go_functions self) cells, Some (Execute_except e))
  end.


End Executor.

(** ** Notions the properties are stated with *)

(** The loop of [python_to_protobuf] over the items of a list, from a
    message that already holds [result]. *)
Definition append_items (items : list PyVal) (result : Res Value) : Res Value :=
  fold_left
    (fun acc item =>
       result ← acc; v ← python_to_protobuf item; Ok (values_append result v))
    items result.

(** [protobuf_to_python(python_to_protobuf(x))] *)
Definition round_trip (x : PyVal) : Res PyVal :=
  value ← python_to_protobuf x; Ok (protobuf_to_python value).

(** Native values whose strings are valid text, whose integers (booleans
    are integers) fit the [int64] field, whose dicts have no entry, and
    whose objects of other types have a [str()] that returns valid text. *)
Fixpoint fits_wire (value : PyVal) : bool :=
  match value with
  | PyStr s => utf8 s
  | PyInt z => in_int64 z
  | PyList items => forallb fits_wire items
  | PyDict items => match items with [] => true | _ :: _ => false end
  | PyObject o =>
      match ob_str o with
      | Ok text => utf8 text
      | Raise _ => false
      end
  | PyNone | PyFloat _ | PyBool _ => true
  end.

(** Native values built from [None], strings of valid text, floats,
    integers that fit the [int64] field and lists with at least one item. *)
Fixpoint plain (value : PyVal) : bool :=
  match value with
  | PyNone | PyFloat _ => true
  | PyStr s => utf8 s
  | PyInt z => in_int64 z
  | PyList items =>
      match items with [] => false | _ :: _ => forallb plain items end
  | PyBool _ | PyDict _ | PyObject _ => false
  end.

(** The statement assigns the name. *)
Definition assigns (name : string) (s : stmt) : bool :=
  match s with
  | SAssign target _ => String.eqb target name
  | _ => false
  end.

(** The scope of a call without the context entry [key]. *)
Definition without_entry (key : string) (request : ExecuteRequest)
  : ExecuteRequest :=
  mkRequest (code request) (delete key (context request)).

(** The requests the properties are tried on. *)
Definition request_result : ExecuteRequest :=
  mkRequest "result = x + 1" {[ "x" := int_value 41 ]}.

Definition request_dunder_result : ExecuteRequest :=
  mkRequest "__result__ = x + 1" {[ "x" := int_value 41 ]}.


Definition request_print : ExecuteRequest :=
  mkRequest "print('hi'); y = [1,2,3]" ∅.

Definition request_print_list : ExecuteRequest :=
  mkRequest "print('hi'); __result__ = [1,2,3]" ∅.


Definition request_division : ExecuteRequest := mkRequest "result = 1/0" ∅.

Definition request_import : ExecuteRequest := mkRequest "import os" ∅.

Definition request_open : ExecuteRequest := mkRequest "open('f')" ∅.

Definition request_double : ExecuteRequest :=
  mkRequest "__result__ = double + 1" {[ "double" := int_value 20 ]}.

(** A servicer with a host callable registered under the name [double]. *)
Definition servicer_double : PythonExecutorServicer :=
  register_go_function __init__ "double"
    (PyObject (mkObj "function" "<function double>" None)).

Definition request_len (z : Z) : ExecuteRequest :=
  mkRequest "__result__ = len" {[ "len" := int_value z ]}.


(** ** Notions the further properties are stated with *)

(** What a round trip through the codec makes of a native value: a boolean
    becomes the integer it stands for, an empty list or dict becomes [None],
    an object of another type becomes its text. *)
Fixpoint lossy (value : PyVal) : PyVal :=
  match value with
  | PyBool b => PyInt (Z.b2z b)
  | PyList items =>
      match items with
      | [] => PyNone
      | _ :: _ => PyList (List.map lossy items)
      end
  | PyDict _ => PyNone
  | PyObject o =>
      match ob_str o with
      | Ok text => PyStr text
      | Raise _ => PyNone
      end
  | PyNone | PyStr _ | PyInt _ | PyFloat _ => value
  end.

(** The exceptions [str()] raises for the objects the encoder can reach in
    a value: in the items of a list, and in the value of the first entry of
    a dict (the loop over the entries ends at the first one). *)
Fixpoint str_failures (value : PyVal) : list PyExc :=
  match value with
  | PyList items => flat_map str_failures items
  | PyDict ((_, v) :: _) => str_failures v
  | PyObject o =>
      match ob_str o with
      | Raise e => [e]
      | Ok _ => []
      end
  | _ => []
  end.

(** The wire values the encoder can produce: no boolean and no map variant,
    integers within the [int64] field, no list variant without a value (and
    strings of valid text, as a message has them). *)
Fixpoint encoded (w : Value) : bool :=
  match w with
  | Value_unset | float_value _ | null_value => true
  | str_value s => utf8 s
  | int_value z => in_int64 z
  | bool_value _ | map_value _ => false
  | list_value values =>
      match values with
      | [] => false
      | _ :: _ => forallb encoded values
      end
  end.

(** A native value that is encoded as the given wire value. *)
Fixpoint preimage (w : Value) : PyVal :=
  match w with
  | Value_unset => PyList []
  | str_value s => PyStr s
  | int_value z => PyInt z
  | float_value f => PyFloat f
  | bool_value b => PyBool b
  | null_value => PyNone
  | list_value values => PyList (List.map preimage values)
  | map_value _ => PyDict []
  end.

(** The wire values that come back from decoding and encoding again: those
    of [encoded] in which, moreover, every value has a variant set. *)
Fixpoint canonical (w : Value) : bool :=
  match w with
  | float_value _ | null_value => true
  | str_value s => utf8 s
  | int_value z => in_int64 z
  | Value_unset | bool_value _ | map_value _ => false
  | list_value values =>
      match values with
      | [] => false
      | _ :: _ => forallb canonical values
      end
  end.

(** The entries of a dict have string keys, each bound once. *)
Fixpoint keys_distinct (items : list (PyVal * PyVal)) : bool :=
  match items with
  | [] => true
  | (PyStr k, _) :: rest =>
      match dict_get rest k with
      | None => keys_distinct rest
      | Some _ => false
      end
  | _ :: _ => false
  end.

(** Plain data: no object of another type (so no callable) anywhere, and
    dicts with distinct string keys. *)
Fixpoint is_data (value : PyVal) : bool :=
  match value with
  | PyObject _ => false
  | PyList items => forallb is_data items
  | PyDict items =>
      keys_distinct items && forallb (fun kv => is_data (snd kv)) items
  | PyNone | PyStr _ | PyInt _ | PyFloat _ | PyBool _ => true
  end.

(** The map a map field stands for, whatever the order its entries are
    listed in. *)
Definition fields_map (fields : list (string * Value)) : gmap string Value :=
  list_to_map fields.

(** The text is made of ASCII characters. *)
Fixpoint ascii_only (s : string) : bool :=
  match s with
  | EmptyString => true
  | String c s => byte_in 0 127 c && ascii_only s
  end.

(** An exception the [except] block of [Execute] makes a response of: it
    derives from [Exception] and its [str()] returns a text the error field
    accepts. *)
Definition reportable (e : PyExc) : bool :=
  is_Exception e &&
  match exc_str e with
  | Ok text => utf8 text
  | Raise _ => false
  end.

(** A request whose result is one more than the largest [int64]. *)
Definition request_overflow : ExecuteRequest :=
  mkRequest "__result__ = x + 1" {[ "x" := int_value (2 ^ 63 - 1) ]}.

(** A lone surrogate (U+D800), as the three bytes it would take in
    UTF-8. *)
Definition lone_surrogate : string :=
  String "237" (String "160" (String "128" EmptyString)).

(** An object whose [__str__] raises. *)
Definition object_without_text : PyObj :=
  mkPyObj "Broken" (Raise (mkExc "RuntimeError" "no text")) None.

(** An interpreter whose run raises the exception. *)
Definition exec_raises (e : PyExc) (code : string) (globals : gmap string PyVal)
  : Run (gmap string PyVal) :=
  raise e.

(** An interpreter whose run writes the text to the output and ends. *)
Definition exec_prints (text : string) (code : string)
    (globals : gmap string PyVal) : Run (gmap string PyVal) :=
  and_then (write text) (fun _ => ret globals).


(** ** Notions the isolation of calls is stated with *)




(** A host callable that keeps the argument of its last call in a cell and
    returns the one of the call before. *)
Definition remember : PyVal :=
  PyObject (mkPyObj "function" (Ok "<function remember>") (Some (HostSwap "last"))).

Definition servicer_remember : PythonExecutorServicer :=
  register_go_function __init__ "remember" remember.

Definition request_remember (z : Z) : ExecuteRequest :=
  mkRequest "__result__ = remember(x)" {[ "x" := int_value z ]}.


(** *** Worker threads

    [serve] hands the calls to the threads of a pool, which all use the one
    servicer. A call in progress on a thread has its own globals and its own
    output buffer; the cells of the host are shared by the threads. The
    threads are switched between statements here (the interpreter switches
    between bytecodes). *)
Inductive Thread :=
| Running (body : list stmt) (globals : gmap string PyVal) (output : string)
| Finished (outcome : Res (gmap string PyVal)) (output : string)
| Lost.

(** The thread of a call, at the start of [exec]. *)
Definition start (self : PythonExecutorServicer) (request : ExecuteRequest)
  : Thread :=
  match parse (code request) with
  | Some body => Running body (exec_globals self request) ""
  | None => Lost
  end.

(** The thread runs its next statement. *)
Definition thread_step (t : Thread) (cells : gmap string PyVal)
  : Thread * gmap string PyVal :=
  match t with
  | Running [] globals output => (Finished (Ok globals) output, cells)
  | Running (s :: body) globals output =>
      match exec_stmt s globals (mkState output cells) with
      | None => (Lost, cells)
      | Some (Ok globals, st) => (Running body globals (st_output st), st_host st)
      | Some (Raise e, st) => (Finished (Raise e) (st_output st), st_host st)
      end
  | _ => (t, cells)
  end.

(** Two threads under a schedule that tells which of them runs next. *)
Fixpoint interleave (schedule : list bool) (a b : Thread)
    (cells : gmap string PyVal) : Thread * Thread * gmap string PyVal :=
  match schedule with
  | [] => (a, b, cells)
  | true :: schedule =>
      let (a, cells) := thread_step a cells in interleave schedule a b cells
  | false :: schedule =>
      let (b, cells) := thread_step b cells in interleave schedule a b cells
  end.





(** * Properties *)

(** ** The value codec *)

(** Induction on native values, with the induction hypothesis for every item
    of a list and every key and value of a dict. *)
Lemma PyVal_nested_ind (P : PyVal -> Prop) :
  P PyNone ->
  (forall s, P (PyStr s)) ->
  (forall z, P (PyInt z)) ->
  (forall f, P (PyFloat f)) ->
  (forall b, P (PyBool b)) ->
  (forall items, Forall P items -> P (PyList items)) ->
  (forall items, Forall (fun kv => P (fst kv) /\ P (snd kv)) items -> P (PyDict items)) ->
  (forall o, P (PyObject o)) ->
  forall value, P value.
Proof.
  intros HNone HStr HInt HFloat HBool HList HDict HObj.
  fix IH 1. intros [ | s | z | f | b | items | items | o ].
  - exact HNone.
  - apply HStr.
  - apply HInt.
  - apply HFloat.
  - apply HBool.
  - apply HList. induction items as [ | item items IHitems ].
    + constructor.
    + constructor; [ apply IH | exact IHitems ].
  - apply HDict. induction items as [ | [k v] items IHitems ].
    + constructor.
    + constructor; [ split; apply IH | exact IHitems ].
  - apply HObj.
Qed.

(** The encoder by cases on the value: every value is taken by exactly one
    branch of the chain, a boolean by the integer one. *)
Lemma python_to_protobuf_cases value :
  python_to_protobuf value =
  match value with
  | PyNone => Ok null_value
  | PyStr s => set_str_value s
  | PyInt z => set_int_value z
  | PyFloat f => Ok (float_value f)
  | PyBool b => set_int_value (Z.b2z b)
  | PyList items => append_items items (Ok Value_unset)
  | PyDict items =>
      fold_left
        (fun acc kv =>
           result ← acc; v ← python_to_protobuf (snd kv);
           fields_setitem result (fst kv) v)
        items (Ok Value_unset)
  | PyObject o => text ← ob_str o; set_str_value text
  end.
Proof. destruct value; reflexivity. Qed.

Lemma python_to_protobuf_list items :
  python_to_protobuf (PyList items) = append_items items (Ok Value_unset).
Proof. reflexivity. Qed.

Lemma append_items_raise items e : append_items items (Raise e) = Raise e.
Proof. induction items as [ | item items IH ]; simpl; auto. Qed.

Lemma append_items_cons item items result :
  append_items (item :: items) (Ok result) =
  match python_to_protobuf item with
  | Ok v => append_items items (Ok (values_append result v))
  | Raise e => Raise e
  end.
Proof.
  unfold append_items at 1. simpl.
  destruct (python_to_protobuf item) as [ v | e ]; simpl.
  - reflexivity.
  - apply append_items_raise.
Qed.

(** Once a list message holds an item, the loop leaves a list message. *)
Lemma append_items_tag items : forall values,
  match append_items items (Ok (list_value values)) with
  | Ok w => WhichOneof w = Some "list_value"
  | Raise _ => True
  end.
Proof.
  induction items as [ | item items IH ]; intros values.
  - reflexivity.
  - rewrite append_items_cons.
    destruct (python_to_protobuf item) as [ v | e ]; [ | exact I ].
    apply IH.
Qed.

Lemma in_int64_b2z b : in_int64 (Z.b2z b) = true.
Proof. destruct b; reflexivity. Qed.

Lemma append_items_total items :
  Forall (fun item => fits_wire item = true ->
                      exists w, python_to_protobuf item = Ok w) items ->
  forallb fits_wire items = true ->
  forall result, exists w, append_items items (Ok result) = Ok w.
Proof.
  induction 1 as [ | item items Hitem _ IH ]; intros Hfits result.
  - exists result. reflexivity.
  - simpl in Hfits. apply andb_prop in Hfits as [Hfit Hfits].
    rewrite append_items_cons.
    destruct (Hitem Hfit) as [v ->]. apply IH, Hfits.
Qed.

Lemma python_to_protobuf_total value :
  fits_wire value = true -> exists w, python_to_protobuf value = Ok w.
Proof.
  induction value as [ | s | z | f | b | items IH | items _ | o ]
    using PyVal_nested_ind; intros Hfits.
  - eexists; reflexivity.
  - simpl in Hfits. rewrite python_to_protobuf_cases. unfold set_str_value.
    rewrite Hfits. eexists; reflexivity.
  - simpl in *. unfold set_int_value. rewrite Hfits. eexists; reflexivity.
  - eexists; reflexivity.
  - simpl. unfold set_int_value. rewrite in_int64_b2z. eexists; reflexivity.
  - rewrite python_to_protobuf_list. apply append_items_total; assumption.
  - destruct items; [ eexists; reflexivity | discriminate ].
  - simpl in Hfits. rewrite python_to_protobuf_cases.
    destruct (ob_str o) as [ text | e ]; [ | discriminate ].
    simpl. unfold set_str_value. rewrite Hfits. eexists; reflexivity.
Qed.

Lemma append_items_plain items :
  Forall (fun item => plain item = true -> round_trip item = Ok item) items ->
  forallb plain items = true ->
  forall values, exists ws,
    append_items items (Ok (list_value values)) = Ok (list_value (values ++ ws)) /\
    List.map protobuf_to_python ws = items.
Proof.
  induction 1 as [ | item items Hitem _ IH ]; intros Hplain values.
  - exists []. simpl. rewrite app_nil_r. split; reflexivity.
  - simpl in Hplain. apply andb_prop in Hplain as [Hp Hps].
    rewrite append_items_cons. specialize (Hitem Hp). unfold round_trip in Hitem.
    destruct (python_to_protobuf item) as [ v | e ]; simpl in Hitem; [ | discriminate ].
    injection Hitem as Hv. unfold values_append. simpl get_values.
    destruct (IH Hps (values ++ [v])%list) as (ws & -> & Hmap). exists (v :: ws). split.
    + rewrite <- app_assoc. reflexivity.
    + simpl. rewrite Hv, Hmap. reflexivity.
Qed.

(** The round trip holds on the plain values. *)
Lemma round_trip_plain x : plain x = true -> round_trip x = Ok x.
Proof.
  induction x as [ | s | z | f | b | items IH | items _ | o ]
    using PyVal_nested_ind; intros Hplain; try discriminate; try reflexivity.
  - simpl in Hplain. unfold round_trip. rewrite python_to_protobuf_cases.
    unfold set_str_value. rewrite Hplain. reflexivity.
  - simpl in Hplain. unfold round_trip. simpl. unfold set_int_value.
    rewrite Hplain. reflexivity.
  - destruct items as [ | item items ]; [ discriminate | ].
    unfold round_trip. rewrite python_to_protobuf_list.
    destruct (append_items_plain (item :: items) IH Hplain []) as (ws & Hws & Hmap).
    change (get_values Value_unset) with (@nil Value) in *.
    revert Hws. rewrite !append_items_cons.
    destruct (python_to_protobuf item) as [ v | e ]; [ | discriminate ].
    unfold values_append. simpl get_values. intros ->.
    simpl. rewrite Hmap. reflexivity.
Qed.

(** Item assignment on the map field fails, with an exception that derives
    from [Exception]. *)
Lemma fields_setitem_raises result k v :
  exists e, fields_setitem result k v = Raise e /\ is_Exception e = true.
Proof.
  unfold fields_setitem. destruct k as [ | s | | | | | | o ];
    try (eexists; split; reflexivity).
  - destruct (utf8 s); eexists; split; reflexivity.
  - destruct (String.eqb (ob_type o) "bytes"); eexists; split; reflexivity.
Qed.

(** Item assignment on the map field fails, so the loop over the entries
    of a dict leaves the message as it was or raises. *)
Lemma setitem_loop_unset items :
  match python_to_protobuf (PyDict items) with
  | Ok w => w = Value_unset
  | Raise _ => True
  end.
Proof.
  rewrite python_to_protobuf_cases.
  assert (Hraise : forall (l : list (PyVal * PyVal)) e,
    fold_left
      (fun acc kv =>
         result ← acc; v ← python_to_protobuf (snd kv);
         fields_setitem result (fst kv) v) l (Raise e) = Raise e).
  { induction l as [ | kv l IHl ]; intros e; simpl; auto. }
  destruct items as [ | [k v] items ]; [ reflexivity | ].
  simpl fold_left. simpl snd. simpl fst.
  destruct (python_to_protobuf v) as [ w | e ].
  - change (Ok w ≫= (fun v0 : Value => fields_setitem Value_unset k v0))
      with (fields_setitem Value_unset k w).
    destruct (fields_setitem_raises Value_unset k w) as (e & -> & _).
    rewrite Hraise. exact I.
  - change (Raise e ≫= (fun v0 : Value => fields_setitem Value_unset k v0))
      with (@Raise Value e).
    rewrite Hraise. exact I.
Qed.

(** C2, as the code has it: a boolean is an instance of [int], the integer
    branch is tested first, and the encoder sets the integer variant (1 for
    [True], 0 for [False]); no native value at all is encoded with the
    boolean variant set. *)
Theorem python_to_protobuf_bool (b : bool) :
  isinstance (PyBool b) ty_int = true /\
  python_to_protobuf (PyBool b) = Ok (int_value (Z.b2z b)) /\
  WhichOneof (int_value (Z.b2z b)) = Some "int_value" /\
  forall value,
    match python_to_protobuf value with
    | Ok w => WhichOneof w <> Some "bool_value"
    | Raise _ => True
    end.
Proof.
  split; [ reflexivity | ]. split; [ destruct b; reflexivity | ].
  split; [ reflexivity | ].
  intros [ | s | z | f | [ | ] | items | items | o ]; try (simpl; discriminate).
  - rewrite python_to_protobuf_cases. unfold set_str_value.
    destruct (utf8 s); [ discriminate | exact I ].
  - simpl. unfold set_int_value. destruct (in_int64 z); [ discriminate | exact I ].
  - destruct items as [ | item items ]; [ simpl; discriminate | ].
    rewrite python_to_protobuf_list, append_items_cons.
    destruct (python_to_protobuf item) as [ v | e ]; [ | exact I ].
    pose proof (append_items_tag items (get_values Value_unset ++ [v])) as Htag.
    unfold values_append.
    destruct (append_items items _) as [ w | e ]; [ | exact I ].
    rewrite Htag. discriminate.
  - pose proof (setitem_loop_unset items) as Hunset.
    destruct (python_to_protobuf (PyDict items)) as [ w | e ]; [ | exact I ].
    subst w. discriminate.
  - rewrite python_to_protobuf_cases.
    destruct (ob_str o) as [ text | e ]; [ | exact I ].
    simpl. unfold set_str_value. destruct (utf8 text); [ discriminate | exact I ].
Qed.

(** C3, at the empty list: its encoding has no variant set and decodes to
    [None], so the round trip does not give the list back; [True] comes back
    as the integer 1. *)
Theorem round_trip_empty_list :
  round_trip (PyList []) = Ok PyNone /\
  round_trip (PyList []) <> Ok (PyList []) /\
  round_trip (PyBool true) = Ok (PyInt 1).
Proof. repeat split. discriminate. Qed.

(** A dict with an entry is not encoded: the assignment to the map field
    raises. *)
Example python_to_protobuf_dict_entry :
  python_to_protobuf (PyDict [(PyStr "a", PyInt 1)]) =
  Raise (mkExc "ValueError" "Message objects may not be assigned").
Proof. reflexivity. Qed.

(** A string with a lone surrogate is refused by the string field, and what
    the [str()] of an object raises is raised by the encoder. *)
Example python_to_protobuf_lone_surrogate :
  python_to_protobuf (PyStr lone_surrogate) = Raise surrogates_not_allowed.
Proof. reflexivity. Qed.

Example python_to_protobuf_object_without_text :
  python_to_protobuf (PyList [PyInt 1; PyObject object_without_text]) =
  Raise (mkExc "RuntimeError" "no text").
Proof. reflexivity. Qed.

(** C4, as stated, fails at the integer 2^63: the [int64] field refuses it
    and the encoder raises instead of returning a wire value. *)
Lemma python_to_protobuf_int_overflow :
  python_to_protobuf (PyInt (2 ^ 63)) =
    Raise (mkExc "ValueError" "Value out of range: 9223372036854775808") /\
  ~ exists w, python_to_protobuf (PyInt (2 ^ 63)) = Ok w.
Proof.
  assert (H : python_to_protobuf (PyInt (2 ^ 63)) =
    Raise (mkExc "ValueError" "Value out of range: 9223372036854775808"))
    by (vm_compute; reflexivity).
  split; [ exact H | ]. intros [w Hw]. rewrite H in Hw. discriminate.
Qed.

(** C4, amended: the encoder returns a wire value for every native value
    (a finite tree) whose strings are valid text, whose integers fit the
    64-bit signed field, whose dicts are empty and whose objects of other
    types have a [str()] that returns valid text; such an object is encoded
    as the string variant that holds its text. *)
Theorem python_to_protobuf_fallback (value : PyVal) (o : PyObj) (text : string) :
  fits_wire value = true ->
  ob_str o = Ok text ->
  utf8 text = true ->
  (exists w, python_to_protobuf value = Ok w) /\
  python_to_protobuf (PyObject o) = Ok (str_value text).
Proof.
  intros Hfits Hstr Htext. split; [ apply python_to_protobuf_total, Hfits | ].
  rewrite python_to_protobuf_cases, Hstr. simpl.
  unfold set_str_value. rewrite Htext. reflexivity.
Qed.

Lemma python_to_protobuf_fallback_witness :
  fits_wire (PyList [PyInt 7; PyBool true; PyObject (mkObj "tuple" "(1, 2)" None)]) = true /\
  ((exists w, python_to_protobuf
      (PyList [PyInt 7; PyBool true; PyObject (mkObj "tuple" "(1, 2)" None)]) = Ok w) /\
   python_to_protobuf (PyObject (mkObj "set" "{1}" None)) = Ok (str_value "{1}")).
Proof.
  split; [ reflexivity | ].
  apply (python_to_protobuf_fallback
           (PyList [PyInt 7; PyBool true; PyObject (mkObj "tuple" "(1, 2)" None)])
           (mkObj "set" "{1}" None) "{1}").
  - reflexivity.
  - reflexivity.
  - reflexivity.
Defined.

(** C5: a wire value with no member of the oneof set decodes to [None]; the
    decoder is a total function of the wire value. *)
Theorem protobuf_to_python_unset (value : Value) :
  WhichOneof value = None -> protobuf_to_python value = PyNone.
Proof. destruct value; simpl; intros H; try discriminate; reflexivity. Qed.

Lemma protobuf_to_python_unset_witness :
  WhichOneof Value_unset = None /\ protobuf_to_python Value_unset = PyNone.
Proof.
  split; [ reflexivity | ].
  apply (protobuf_to_python_unset Value_unset). reflexivity.
Defined.

(** C10: the empty list and the empty dict are encoded as a wire value with
    no member of the oneof set, which decodes to [None]; a list with at
    least one item, when its items encode, is encoded with the list variant
    set. *)
Theorem python_to_protobuf_empty_container :
  python_to_protobuf (PyList []) = Ok Value_unset /\
  python_to_protobuf (PyDict []) = Ok Value_unset /\
  WhichOneof Value_unset = None /\
  round_trip (PyList []) = Ok PyNone /\
  round_trip (PyDict []) = Ok PyNone /\
  forall item items,
    match python_to_protobuf (PyList (item :: items)) with
    | Ok w => WhichOneof w = Some "list_value"
    | Raise _ => True
    end.
Proof.
  repeat split. intros item items.
  rewrite python_to_protobuf_list, append_items_cons.
  destruct (python_to_protobuf item) as [ v | e ]; [ | exact I ].
  apply append_items_tag.
Qed.

(** ** The executor *)

(** A loop that stores [f v] under every key of [m]: the keys of [m] are
    bound to the image of their value, the others are as they were. *)
Lemma lookup_map_fold_insert {A B} (f : A -> B) (m : gmap string A)
    (g0 : gmap string B) (k : string) :
  map_fold (fun key v (g : gmap string B) => <[key := f v]> g) g0 m !! k =
  match m !! k with
  | Some v => Some (f v)
  | None => g0 !! k
  end.
Proof.
  revert k.
  apply (map_fold_weak_ind
           (fun (r : gmap string B) (m : gmap string A) =>
              forall k, r !! k = match m !! k with
                                 | Some v => Some (f v)
                                 | None => g0 !! k
                                 end)).
  - intros k. rewrite lookup_empty. reflexivity.
  - intros i x m' r Hnone IH k. destruct (decide (i = k)) as [-> | Hne].
    + rewrite !lookup_insert_eq. reflexivity.
    + rewrite !lookup_insert_ne by assumption. apply IH.
Qed.

(** What the scope of a call binds a name to: the context entry, else the
    registered callable, else (for [__builtins__] alone) the built-in
    table. *)
Lemma exec_globals_lookup self request (name : string) :
  exec_globals self request !! name =
  match context request !! name with
  | Some value => Some (protobuf_to_python value)
  | None =>
      match go_functions self !! name with
      | Some func => Some func
      | None =>
          ({[ "__builtins__" := PyDict builtins_table ]} : gmap string PyVal) !! name
      end
  end.
Proof.
  unfold exec_globals.
  rewrite (lookup_map_fold_insert protobuf_to_python).
  destruct (context request !! name); [ reflexivity | ].
  rewrite (lookup_map_fold_insert (fun func : PyVal => func)).
  reflexivity.
Qed.

Lemma exec_globals_context self request key value :
  context request !! key = Some value ->
  exec_globals self request !! key = Some (protobuf_to_python value).
Proof. intros H. rewrite exec_globals_lookup, H. reflexivity. Qed.



(** [Execute] consults the interpreter at the scope of the call, with an
    empty buffer and the cells of the host, and nowhere else. *)
Lemma Execute_ext exec1 exec2 self request :
  exec1 (code request) (exec_globals self request) (mkState "" (host_cells self)) =
  exec2 (code request) (exec_globals self request) (mkState "" (host_cells self)) ->
  Execute exec1 self request = Execute exec2 self request.
Proof. intros H. unfold Execute, Execute_try. rewrite H. reflexivity. Qed.

(** A run that ends normally: the response holds the encoded binding of
    [__result__], or of [None] in its absence, and the buffer; what the
    encoder or the constructor of the response raises goes to the [except]
    block. *)
Lemma Execute_normal exec self request globals st :
  exec (code request) (exec_globals self request) (mkState "" (host_cells self)) =
    Some (Ok globals, st) ->
  Execute exec self request =
  (mkServicer (go_functions self) (st_host st),
   Some match (value ← python_to_protobuf (default PyNone (globals !! "__result__"));
               new_ExecuteResponse true (Some value) [st_output st] "") with
        | Ok response => Ok response
        | Raise e => Execute_except e
        end).
Proof.
  intros H. unfold Execute, Execute_try. rewrite H.
  destruct (python_to_protobuf _ ≫= _); reflexivity.
Qed.


Lemma servicer_eta self : mkServicer (go_functions self) (host_cells self) = self.
Proof. destruct self; reflexivity. Qed.

Lemma py_exec_assign_sum (g : gmap string PyVal) st :
  g !! "x" = Some (PyInt 41) ->
  py_exec "__result__ = x + 1" g st = Some (Ok (<["__result__" := PyInt 42]> g), st).
Proof.
  intros Hx. unfold py_exec.
  replace (parse "__result__ = x + 1")
    with (Some [SAssign "__result__" (EAdd (EName "x") (EInt 1))])
    by (vm_compute; reflexivity).
  cbn [exec_stmts exec_stmt eval]. unfold and_then, load_name.
  rewrite Hx. reflexivity.
Qed.

(** The scenarios of the specification, on the fragment, the list being
    bound to [__result__]. *)
Example Execute_print_list :
  snd (Execute py_exec __init__ request_print_list) =
  Some (Ok (mkResponse true
              (Some (list_value [int_value 1; int_value 2; int_value 3]))
              ["hi" +:+ String "010" EmptyString] "")).
Proof. vm_compute. reflexivity. Qed.

Example Execute_division_by_zero :
  snd (Execute py_exec __init__ request_division) =
  Some (Ok (mkResponse false None [] "division by zero")).
Proof. vm_compute. reflexivity. Qed.

Example Execute_import_denied :
  snd (Execute py_exec __init__ request_import) =
  Some (Ok (mkResponse false None [] "__import__ not found")).
Proof. vm_compute. reflexivity. Qed.

Example Execute_open_denied :
  snd (Execute py_exec __init__ request_open) =
  Some (Ok (mkResponse false None [] "name 'open' is not defined")).
Proof. vm_compute. reflexivity. Qed.

(** C1, as stated, fails: the code [result = x + 1] binds [result], the
    executor reads [__result__], finds nothing and answers with the null
    variant. *)
Lemma Execute_result_name_counterexample :
  snd (Execute py_exec __init__ request_result) =
    Some (Ok (mkResponse true (Some null_value) [""] "")) /\
  snd (Execute py_exec __init__ request_result) <>
    Some (Ok (mkResponse true (Some (int_value 42)) [""] "")).
Proof.
  assert (H : snd (Execute py_exec __init__ request_result) =
    Some (Ok (mkResponse true (Some null_value) [""] "")))
    by (vm_compute; reflexivity).
  split; [ exact H | ]. rewrite H. discriminate.
Qed.

(** C1, amended: for the code [__result__ = x + 1] and the context that
    binds [x] to the integer 41, [Execute] answers with a success whose
    result is the integer variant 42, whatever the registry holds: the
    binding it reads back is the one named [__result__]. *)
Theorem Execute_dunder_result (self : PythonExecutorServicer) :
  Execute py_exec self request_dunder_result =
  (self, Some (Ok (mkResponse true (Some (int_value 42)) [""] ""))).
Proof.
  rewrite (Execute_normal py_exec self request_dunder_result
             (<["__result__" := PyInt 42]> (exec_globals self request_dunder_result))
             (mkState "" (host_cells self))).
  - rewrite lookup_insert_eq. simpl st_host. rewrite servicer_eta. reflexivity.
  - change (code request_dunder_result) with "__result__ = x + 1".
    apply py_exec_assign_sum.
    apply (exec_globals_context self request_dunder_result "x" (int_value 41)).
    reflexivity.
Qed.

(** A statement leaves the names it does not assign as they were. *)
Lemma exec_stmt_unassigned s name g st g' st' :
  assigns name s = false ->
  exec_stmt s g st = Some (Ok g', st') ->
  g' !! name = g !! name.
Proof.
  intros Hassigns. destruct s as [ | m | test | target value | value ]; simpl.
  - intros [= <- _]. reflexivity.
  - destruct (g !! "__builtins__") as [ [ | | | | | | table | ] | ];
      try discriminate.
    destruct (dict_get table "__import__"); discriminate.
  - unfold and_then. destruct (eval g test st) as [ [ [ v | e ] st1 ] | ];
      try discriminate.
    destruct (truth v) as [ [ | ] | ]; try discriminate.
    intros [= <- _]. reflexivity.
  - unfold and_then. destruct (eval g value st) as [ [ [ v | e ] st1 ] | ];
      try discriminate.
    intros [= <- _]. simpl in Hassigns. apply String.eqb_neq in Hassigns.
    apply lookup_insert_ne. exact Hassigns.
  - unfold and_then. destruct (eval g value st) as [ [ [ v | e ] st1 ] | ];
      try discriminate.
    intros [= <- _]. reflexivity.
Qed.

Lemma exec_stmts_unassigned body name : forall g st g' st',
  forallb (fun s => negb (assigns name s)) body = true ->
  exec_stmts body g st = Some (Ok g', st') ->
  g' !! name = g !! name.
Proof.
  induction body as [ | s body IH ]; intros g st g' st' Hbody; simpl.
  - intros [= <- _]. reflexivity.
  - simpl in Hbody. apply andb_prop in Hbody as [Hs Hbody].
    apply negb_true_iff in Hs.
    unfold and_then.
    destruct (exec_stmt s g st) as [ [ [ g1 | e ] st1 ] | ] eqn:Hstep;
      try discriminate.
    intros Hrest. rewrite (IH _ _ _ _ Hbody Hrest).
    apply (exec_stmt_unassigned s name g st g1 st1 Hs Hstep).
Qed.

(** When the run ends normally with [__result__] unbound and an output the
    string field accepts, the response is a success with the null
    variant. *)
Lemma Execute_unbound_result exec self request globals st :
  exec (code request) (exec_globals self request) (mkState "" (host_cells self)) =
    Some (Ok globals, st) ->
  globals !! "__result__" = None ->
  utf8 (st_output st) = true ->
  Execute exec self request =
  (mkServicer (go_functions self) (st_host st),
   Some (Ok (mkResponse true (Some null_value) [st_output st] ""))).
Proof.
  intros Hexec Hunbound Houtput.
  rewrite (Execute_normal exec self request globals st Hexec), Hunbound.
  simpl. unfold new_ExecuteResponse. simpl. rewrite Houtput. reflexivity.
Qed.

(** On the fragment: code none of whose statements assigns [__result__],
    run in a scope that neither the context nor the registry binds it in,
    gives the null variant when it ends normally with an output the string
    field accepts. *)
Lemma Execute_never_assigned self request body globals st :
  parse (code request) = Some body ->
  forallb (fun s => negb (assigns "__result__" s)) body = true ->
  context request !! "__result__" = None ->
  go_functions self !! "__result__" = None ->
  py_exec (code request) (exec_globals self request) (mkState "" (host_cells self)) =
    Some (Ok globals, st) ->
  utf8 (st_output st) = true ->
  Execute py_exec self request =
  (mkServicer (go_functions self) (st_host st),
   Some (Ok (mkResponse true (Some null_value) [st_output st] ""))).
Proof.
  intros Hparse Hbody Hcontext Hregistry Hexec Houtput.
  apply (Execute_unbound_result py_exec self request globals st);
    [ exact Hexec | | exact Houtput ].
  unfold py_exec in Hexec. rewrite Hparse in Hexec.
  rewrite (exec_stmts_unassigned body "__result__" _ _ _ _ Hbody Hexec).
  rewrite exec_globals_lookup, Hcontext, Hregistry.
  apply lookup_singleton_ne. discriminate.
Qed.


(** A run that ends normally, assigns nothing and prints a lone surrogate:
    the logs refuse the output, inside the [try] block, and the response is
    a failure. *)
Example Execute_output_refused :
  snd (Execute (exec_prints lone_surrogate) __init__ request_print) =
  Some (Ok (mkResponse false None []
              "'utf-8' codec can't encode characters: surrogates not allowed")).
Proof. reflexivity. Qed.











Lemma exec_globals_shadowed self request key :
  exec_globals self (without_entry key request) !! key =
  match go_functions self !! key with
  | Some func => Some func
  | None =>
      ({[ "__builtins__" := PyDict builtins_table ]} : gmap string PyVal) !! key
  end.
Proof.
  rewrite exec_globals_lookup. unfold without_entry. simpl.
  rewrite lookup_delete_eq. reflexivity.
Qed.






(** A context entry named as a registered callable: the code adds 1 to the
    context value, and the registry still holds the callable. *)
Example Execute_shadows_registered :
  Execute py_exec servicer_double request_double =
  (servicer_double, Some (Ok (mkResponse true (Some (int_value 21)) [""] ""))).
Proof. vm_compute. reflexivity. Qed.

(** * Further properties *)

(** ** The value codec *)

(** Induction on wire values, with the induction hypothesis for every value
    of a list and of a map. *)
Lemma Value_nested_ind (P : Value -> Prop) :
  P Value_unset ->
  (forall s, P (str_value s)) ->
  (forall z, P (int_value z)) ->
  (forall f, P (float_value f)) ->
  (forall b, P (bool_value b)) ->
  P null_value ->
  (forall values, Forall P values -> P (list_value values)) ->
  (forall fields, Forall (fun kv => P (snd kv)) fields -> P (map_value fields)) ->
  forall w, P w.
Proof.
  intros Hunset Hstr Hint Hfloat Hbool Hnull Hlist Hmap.
  fix IH 1. intros [ | s | z | f | b | | values | fields ].
  - exact Hunset.
  - apply Hstr.
  - apply Hint.
  - apply Hfloat.
  - apply Hbool.
  - exact Hnull.
  - apply Hlist. induction values as [ | v values IHvalues ].
    + constructor.
    + constructor; [ apply IH | exact IHvalues ].
  - apply Hmap. induction fields as [ | [k v] fields IHfields ].
    + constructor.
    + constructor; [ apply IH | exact IHfields ].
Qed.

(** The loop over the items succeeds exactly when every item is encoded,
    and then appends the encodings in the order of the items. *)
Lemma append_items_Ok items : forall values w,
  append_items items (Ok (list_value values)) = Ok w <->
  exists ws,
    w = list_value (values ++ ws) /\
    Forall2 (fun item v => python_to_protobuf item = Ok v) items ws.
Proof.
  induction items as [ | item items IH ]; intros values w.
  - simpl. split.
    + intros [= <-]. exists []. rewrite app_nil_r. split; [ reflexivity | constructor ].
    + intros (ws & -> & Hws). inversion Hws. rewrite app_nil_r. reflexivity.
  - rewrite append_items_cons. split.
    + destruct (python_to_protobuf item) as [ v | e ] eqn:Hv; [ | discriminate ].
      unfold values_append. simpl get_values. intros Hrest.
      apply IH in Hrest as (ws & -> & Hws). exists (v :: ws). split.
      * rewrite <- app_assoc. reflexivity.
      * constructor; assumption.
    + intros (ws & -> & Hws). inversion Hws as [ | item' v items' ws' Hv Hrest ]; subst.
      rewrite Hv. unfold values_append. simpl get_values.
      apply IH. exists ws'. split; [ | exact Hrest ].
      rewrite <- app_assoc. reflexivity.
Qed.

Lemma python_to_protobuf_list_Ok item items w :
  python_to_protobuf (PyList (item :: items)) = Ok w <->
  exists ws,
    w = list_value ws /\
    Forall2 (fun item v => python_to_protobuf item = Ok v) (item :: items) ws.
Proof.
  rewrite python_to_protobuf_list, append_items_cons. split.
  - destruct (python_to_protobuf item) as [ v | e ] eqn:Hv; [ | discriminate ].
    unfold values_append. simpl get_values. simpl app. intros Hrest.
    apply append_items_Ok in Hrest as (ws & -> & Hws).
    exists (v :: ws). split; [ reflexivity | constructor; assumption ].
  - intros (ws & -> & Hws). inversion Hws as [ | item' v items' ws' Hv Hrest ]; subst.
    rewrite Hv. unfold values_append. simpl get_values. simpl app.
    apply append_items_Ok. exists ws'. split; [ reflexivity | exact Hrest ].
Qed.

(** The loop stops at the first item that is not encoded. *)
Lemma append_items_first_failure before : forall item after e result,
  Forall (fun x => exists v, python_to_protobuf x = Ok v) before ->
  python_to_protobuf item = Raise e ->
  append_items (before ++ item :: after) (Ok result) = Raise e.
Proof.
  induction before as [ | x before IH ]; intros item after e result Hbefore Hitem.
  - simpl app. rewrite append_items_cons, Hitem. reflexivity.
  - simpl app. rewrite append_items_cons.
    destruct (Forall_inv Hbefore) as [v ->].
    apply IH; [ exact (Forall_inv_tail Hbefore) | exact Hitem ].
Qed.

(** The loop over the entries of a dict ends at its first entry: with the
    exception the encoding of its value raises, else with the one the
    assignment to the map field raises. *)
Lemma python_to_protobuf_dict_cons k v items :
  python_to_protobuf (PyDict ((k, v) :: items)) =
  match python_to_protobuf v with
  | Ok w => fields_setitem Value_unset k w
  | Raise e => Raise e
  end.
Proof.
  rewrite python_to_protobuf_cases.
  assert (Hraise : forall (l : list (PyVal * PyVal)) e0,
    fold_left
      (fun acc kv =>
         result ← acc; v ← python_to_protobuf (snd kv);
         fields_setitem result (fst kv) v) l (Raise e0) = Raise e0).
  { induction l as [ | kv l IHl ]; intros e0; simpl; auto. }
  simpl fold_left. simpl snd. simpl fst.
  destruct (python_to_protobuf v) as [ w | e ].
  - change (Ok w ≫= (fun v0 : Value => fields_setitem Value_unset k v0))
      with (fields_setitem Value_unset k w).
    destruct (fields_setitem_raises Value_unset k w) as (e & -> & _).
    apply Hraise.
  - change (Raise e ≫= (fun v0 : Value => fields_setitem Value_unset k v0))
      with (@Raise Value e).
    apply Hraise.
Qed.

(** A value that does not fit the wire is not encoded. *)
Lemma append_items_unfit items :
  Forall (fun item => fits_wire item = false ->
                      exists e, python_to_protobuf item = Raise e) items ->
  forallb fits_wire items = false ->
  forall result, exists e, append_items items (Ok result) = Raise e.
Proof.
  induction 1 as [ | item items Hitem _ IH ]; intros Hunfit result.
  - discriminate.
  - rewrite append_items_cons. simpl in Hunfit.
    destruct (python_to_protobuf item) as [ v | e ] eqn:Hv.
    + destruct (fits_wire item) eqn:Hfit.
      * apply IH. exact Hunfit.
      * destruct (Hitem eq_refl) as [e He]. discriminate.
    + exists e. reflexivity.
Qed.

Lemma python_to_protobuf_unfit value :
  fits_wire value = false -> exists e, python_to_protobuf value = Raise e.
Proof.
  induction value as [ | s | z | f | b | items IH | items _ | o ]
    using PyVal_nested_ind; intros Hunfit; try discriminate.
  - simpl in Hunfit. rewrite python_to_protobuf_cases. unfold set_str_value.
    rewrite Hunfit. eexists; reflexivity.
  - simpl in Hunfit. simpl. unfold set_int_value. rewrite Hunfit.
    eexists; reflexivity.
  - rewrite python_to_protobuf_list. apply append_items_unfit; assumption.
  - destruct items as [ | [k v] items ]; [ discriminate | ].
    rewrite python_to_protobuf_dict_cons.
    destruct (python_to_protobuf v) as [ w | e ]; [ | eexists; reflexivity ].
    destruct (fields_setitem_raises Value_unset k w) as (e & -> & _).
    eexists; reflexivity.
  - rewrite python_to_protobuf_cases. simpl in Hunfit.
    destruct (ob_str o) as [ text | e ]; [ | eexists; reflexivity ].
    simpl. unfold set_str_value. rewrite Hunfit. eexists; reflexivity.
Qed.

Lemma utf8_ascii_app s t : ascii_only s = true -> utf8 (s +:+ t) = utf8 t.
Proof.
  induction s as [ | c s IH ]; simpl; intros Hs.
  - reflexivity.
  - apply andb_prop in Hs as [Hc Hs]. rewrite Hc. apply IH, Hs.
Qed.

Lemma decimal_ascii z : ascii_only (decimal z) = true.
Proof.
  assert (Huint : forall d, ascii_only (NilEmpty.string_of_uint d) = true).
  { induction d; simpl; try rewrite IHd; reflexivity. }
  unfold decimal, NilZero.string_of_int.
  destruct (Z.to_int z) as [ d | d ].
  - unfold NilZero.string_of_uint. destruct d; try apply Huint. reflexivity.
  - change (ascii_only (String "-" (NilZero.string_of_uint d)) = true).
    simpl. unfold NilZero.string_of_uint. destruct d; try apply Huint. reflexivity.
Qed.

Lemma utf8_ascii s : ascii_only s = true -> utf8 s = true.
Proof.
  induction s as [ | c s IH ]; simpl; intros Hs.
  - reflexivity.
  - apply andb_prop in Hs as [Hc Hs]. rewrite Hc. apply IH, Hs.
Qed.

(** The exceptions of the fields are reportable. *)
Lemma set_int_value_reportable z e :
  set_int_value z = Raise e -> reportable e = true.
Proof.
  unfold set_int_value. destruct (in_int64 z); [ discriminate | ].
  intros [= <-]. unfold reportable, mkExc. cbn [is_Exception exc_str andb].
  rewrite (utf8_ascii_app "Value out of range: " (decimal z) eq_refl).
  apply utf8_ascii, decimal_ascii.
Qed.

Lemma set_str_value_reportable s e :
  set_str_value s = Raise e -> reportable e = true.
Proof.
  unfold set_str_value. destruct (utf8 s); [ discriminate | ].
  intros [= <-]. reflexivity.
Qed.

Lemma fields_setitem_reportable result k v :
  exists e, fields_setitem result k v = Raise e /\ reportable e = true.
Proof.
  unfold fields_setitem. destruct k as [ | s | | | | | | o ];
    try (eexists; split; reflexivity).
  - destruct (utf8 s); eexists; split; reflexivity.
  - destruct (String.eqb (ob_type o) "bytes"); eexists; split; reflexivity.
Qed.

Lemma append_items_reportable items :
  Forall (fun item => forall e, python_to_protobuf item = Raise e ->
                      reportable e = true \/ In e (str_failures item)) items ->
  forall result e,
    append_items items (Ok result) = Raise e ->
    reportable e = true \/ In e (flat_map str_failures items).
Proof.
  induction 1 as [ | item items Hitem _ IH ]; intros result e.
  - discriminate.
  - rewrite append_items_cons. simpl flat_map.
    destruct (python_to_protobuf item) as [ v | e' ] eqn:Hv.
    + intros Hrest. destruct (IH _ _ Hrest) as [ Hcaught | Hin ];
        [ left; exact Hcaught | right; apply in_or_app; right; exact Hin ].
    + intros [= <-]. destruct (Hitem e' eq_refl) as [ Hcaught | Hin ];
        [ left; exact Hcaught | right; apply in_or_app; left; exact Hin ].
Qed.

(** What the encoder raises is reportable, unless it is what the [str()] of
    an object in the value raised. *)
Lemma python_to_protobuf_reportable value : forall e,
  python_to_protobuf value = Raise e ->
  reportable e = true \/ In e (str_failures value).
Proof.
  induction value as [ | s | z | f | b | items IH | items IH | o ]
    using PyVal_nested_ind; intros e; try discriminate.
  - rewrite python_to_protobuf_cases. intros H. left.
    apply (set_str_value_reportable _ _ H).
  - rewrite python_to_protobuf_cases. intros H. left.
    apply (set_int_value_reportable _ _ H).
  - rewrite python_to_protobuf_cases. intros H. left.
    apply (set_int_value_reportable _ _ H).
  - rewrite python_to_protobuf_list. apply append_items_reportable, IH.
  - destruct items as [ | [k v] items ]; [ discriminate | ].
    rewrite python_to_protobuf_dict_cons.
    destruct (Forall_inv IH) as [_ Hv]. simpl in Hv.
    destruct (python_to_protobuf v) as [ w | e' ].
    + destruct (fields_setitem_reportable Value_unset k w) as (e' & -> & Hcaught).
      intros [= <-]. left. exact Hcaught.
    + intros [= <-]. apply Hv. reflexivity.
  - rewrite python_to_protobuf_cases. simpl str_failures.
    destruct (ob_str o) as [ text | e' ]; simpl.
    + intros H. left. apply (set_str_value_reportable _ _ H).
    + intros [= <-]. right. left. reflexivity.
Qed.

Lemma python_to_protobuf_raised value e :
  python_to_protobuf value = Raise e ->
  is_Exception e = true \/ In e (str_failures value).
Proof.
  intros H. destruct (python_to_protobuf_reportable value e H) as [ Hr | Hin ];
    [ left | right; exact Hin ].
  unfold reportable in Hr. apply andb_prop in Hr as [Hcaught _]. exact Hcaught.
Qed.

(** X3: the encoder returns a wire value exactly for the native values
    whose strings are valid text, whose integers fit the [int64] field,
    whose dicts have no entry and whose objects of other types have a
    [str()] that returns valid text; what it raises for the others derives
    from [Exception], unless it is what the [str()] of an object in the
    value raised. *)
Theorem python_to_protobuf_domain (value : PyVal) :
  ((exists w, python_to_protobuf value = Ok w) <-> fits_wire value = true) /\
  (forall e, python_to_protobuf value = Raise e ->
     is_Exception e = true \/ In e (str_failures value)).
Proof.
  split; [ split | ].
  - intros [w Hw]. destruct (fits_wire value) eqn:Hfits; [ reflexivity | ].
    destruct (python_to_protobuf_unfit value Hfits) as [e He].
    rewrite He in Hw. discriminate.
  - apply python_to_protobuf_total.
  - apply python_to_protobuf_raised.
Qed.

(** X4: a list with at least one item is encoded exactly when each of its
    items is, and then as the list variant that holds the encodings of the
    items, one for each item, in the order of the items. *)
Theorem python_to_protobuf_list_items (item : PyVal) (items : list PyVal) (w : Value) :
  python_to_protobuf (PyList (item :: items)) = Ok w <->
  exists ws,
    w = list_value ws /\
    length ws = length (item :: items) /\
    Forall2 (fun x v => python_to_protobuf x = Ok v) (item :: items) ws.
Proof.
  rewrite python_to_protobuf_list_Ok. split.
  - intros (ws & -> & Hws). exists ws. split; [ reflexivity | ].
    split; [ symmetry; apply (Forall2_length _ _ _ Hws) | exact Hws ].
  - intros (ws & -> & _ & Hws). exists ws. split; [ reflexivity | exact Hws ].
Qed.

(** X5: when an item of a list is not encoded and the items before it are,
    encoding the list raises the exception of that item, whatever comes
    after it. *)
Theorem python_to_protobuf_list_first_failure
    (before : list PyVal) (item : PyVal) (after : list PyVal) (e : PyExc) :
  Forall (fun x => exists v, python_to_protobuf x = Ok v) before ->
  python_to_protobuf item = Raise e ->
  python_to_protobuf (PyList (before ++ item :: after)) = Raise e.
Proof.
  intros Hbefore Hitem. rewrite python_to_protobuf_list.
  apply append_items_first_failure; assumption.
Qed.

Lemma python_to_protobuf_list_first_failure_witness :
  python_to_protobuf
    (PyList ([PyInt 1; PyStr "a"] ++ PyInt (2 ^ 63) :: [PyInt (- 2 ^ 64)])) =
  Raise (mkExc "ValueError" "Value out of range: 9223372036854775808").
Proof.
  apply (python_to_protobuf_list_first_failure
           [PyInt 1; PyStr "a"] (PyInt (2 ^ 63)) [PyInt (- 2 ^ 64)]).
  - repeat constructor; eexists; reflexivity.
  - vm_compute. reflexivity.
Defined.

Lemma append_items_round_trip (good : PyVal -> bool) (f : PyVal -> PyVal) items :
  Forall (fun item => good item = true -> round_trip item = Ok (f item)) items ->
  forallb good items = true ->
  forall values, exists ws,
    append_items items (Ok (list_value values)) = Ok (list_value (values ++ ws)) /\
    List.map protobuf_to_python ws = List.map f items.
Proof.
  induction 1 as [ | item items Hitem _ IH ]; intros Hgood values.
  - exists []. simpl. rewrite app_nil_r. split; reflexivity.
  - simpl in Hgood. apply andb_prop in Hgood as [Hg Hgs].
    rewrite append_items_cons. specialize (Hitem Hg). unfold round_trip in Hitem.
    destruct (python_to_protobuf item) as [ v | e ]; simpl in Hitem; [ | discriminate ].
    injection Hitem as Hv. unfold values_append. simpl get_values.
    destruct (IH Hgs (values ++ [v])%list) as (ws & -> & Hmap). exists (v :: ws). split.
    + rewrite <- app_assoc. reflexivity.
    + simpl. rewrite Hv, Hmap. reflexivity.
Qed.

(** A round trip gives the lossy image of the value. *)
Lemma round_trip_lossy x : fits_wire x = true -> round_trip x = Ok (lossy x).
Proof.
  induction x as [ | s | z | f | b | items IH | items _ | o ]
    using PyVal_nested_ind; intros Hfits; try reflexivity.
  - simpl in Hfits. unfold round_trip. rewrite python_to_protobuf_cases.
    unfold set_str_value. rewrite Hfits. reflexivity.
  - simpl in Hfits. unfold round_trip. simpl. unfold set_int_value.
    rewrite Hfits. reflexivity.
  - unfold round_trip. rewrite python_to_protobuf_cases. unfold set_int_value.
    rewrite in_int64_b2z. reflexivity.
  - destruct items as [ | item items ]; [ reflexivity | ].
    unfold round_trip. rewrite python_to_protobuf_list.
    destruct (append_items_round_trip fits_wire lossy (item :: items) IH Hfits [])
      as (ws & Hws & Hmap).
    revert Hws. rewrite !append_items_cons.
    destruct (python_to_protobuf item) as [ v | e ]; [ | discriminate ].
    unfold values_append. simpl get_values. intros ->.
    simpl. simpl in Hmap. rewrite Hmap. reflexivity.
  - destruct items; [ reflexivity | discriminate ].
  - unfold round_trip. rewrite python_to_protobuf_cases. simpl in Hfits. simpl.
    destruct (ob_str o) as [ text | e ]; [ | discriminate ].
    simpl. unfold set_str_value. rewrite Hfits. reflexivity.
Qed.

Lemma lossy_plain x : fits_wire x = true -> plain (lossy x) = true.
Proof.
  induction x as [ | s | z | f | b | items IH | items _ | o ]
    using PyVal_nested_ind; intros Hfits; try reflexivity.
  - exact Hfits.
  - exact Hfits.
  - simpl. apply in_int64_b2z.
  - destruct items as [ | item items ]; [ reflexivity | ].
    change (plain (lossy (PyList (item :: items))))
      with (forallb plain (List.map lossy (item :: items))).
    change (fits_wire (PyList (item :: items)))
      with (forallb fits_wire (item :: items)) in Hfits.
    revert Hfits. generalize (item :: items) IH. clear.
    induction 1 as [ | y ys Hy _ IHys ]; simpl; intros Hfits; [ reflexivity | ].
    apply andb_prop in Hfits as [Hfit Hfits].
    rewrite (Hy Hfit), (IHys Hfits). reflexivity.
  - simpl in Hfits. simpl. destruct (ob_str o) as [ text | e ];
      [ exact Hfits | discriminate ].
Qed.

(** X2: when the encoder accepts a native value, decoding what it returns
    gives the lossy image of the value (booleans as integers, empty lists
    and dicts as [None], objects of other types as their text), and a round
    trip of that image changes nothing any more. *)
Theorem round_trip_is_lossy (x : PyVal) (w : Value) :
  python_to_protobuf x = Ok w ->
  protobuf_to_python w = lossy x /\
  round_trip (lossy x) = Ok (lossy x).
Proof.
  intros Hw.
  assert (Hfits : fits_wire x = true).
  { destruct (fits_wire x) eqn:Hfits; [ reflexivity | ].
    destruct (python_to_protobuf_unfit x Hfits) as [e He].
    rewrite He in Hw. discriminate. }
  split.
  - pose proof (round_trip_lossy x Hfits) as Hround.
    unfold round_trip in Hround. rewrite Hw in Hround.
    injection Hround as Hround. exact Hround.
  - apply round_trip_plain, lossy_plain, Hfits.
Qed.

Lemma round_trip_is_lossy_witness :
  protobuf_to_python (list_value [int_value 1; Value_unset; str_value "(1, 2)"]) =
    PyList [PyInt 1; PyNone; PyStr "(1, 2)"] /\
  round_trip (PyList [PyInt 1; PyNone; PyStr "(1, 2)"]) =
    Ok (PyList [PyInt 1; PyNone; PyStr "(1, 2)"]).
Proof.
  apply (round_trip_is_lossy
           (PyList [PyBool true; PyList []; PyObject (mkObj "tuple" "(1, 2)" None)])
           (list_value [int_value 1; Value_unset; str_value "(1, 2)"])).
  reflexivity.
Defined.

Lemma map_fixed {A} (f : A -> A) (l : list A) :
  List.map f l = l -> Forall (fun x => f x = x) l.
Proof.
  induction l as [ | x l IH ]; simpl; intros H.
  - constructor.
  - injection H as Hx Hl. constructor; [ exact Hx | apply IH, Hl ].
Qed.

Lemma lossy_fixed x : fits_wire x = true -> lossy x = x -> plain x = true.
Proof.
  induction x as [ | s | z | f | b | items IH | items _ | o ]
    using PyVal_nested_ind; intros Hfits Hfixed; try reflexivity;
    try discriminate.
  - exact Hfits.
  - exact Hfits.
  - destruct items as [ | item items ]; [ discriminate | ].
    change (lossy (PyList (item :: items)))
      with (PyList (List.map lossy (item :: items))) in Hfixed.
    change (plain (PyList (item :: items)))
      with (forallb plain (item :: items)).
    change (fits_wire (PyList (item :: items)))
      with (forallb fits_wire (item :: items)) in Hfits.
    assert (Hmap : List.map lossy (item :: items) = item :: items).
    { injection Hfixed as Hhead Htail. simpl. f_equal; assumption. }
    clear Hfixed. apply map_fixed in Hmap. rename Hmap into Hfixed.
    revert Hfits Hfixed. generalize (item :: items) IH. clear.
    induction 1 as [ | y ys Hy _ IHys ]; simpl; intros Hfits Hfixed;
      [ reflexivity | ].
    apply andb_prop in Hfits as [Hfit Hfits].
    rewrite (Hy Hfit (Forall_inv Hfixed)), (IHys Hfits (Forall_inv_tail Hfixed)).
    reflexivity.
  - simpl in Hfixed. destruct (ob_str o); discriminate.
Qed.

(** X1: the round trip gives a native value back unchanged exactly when the
    value is built from [None], strings of valid text (no lone surrogate),
    floats, integers within the [int64] field and lists with at least one
    item. *)
Theorem round_trip_identity (x : PyVal) :
  round_trip x = Ok x <-> plain x = true.
Proof.
  split; [ | apply round_trip_plain ].
  intros Hround.
  assert (Hfits : fits_wire x = true).
  { destruct (fits_wire x) eqn:Hfits; [ reflexivity | ].
    destruct (python_to_protobuf_unfit x Hfits) as [e He].
    unfold round_trip in Hround. rewrite He in Hround. discriminate. }
  apply lossy_fixed; [ exact Hfits | ].
  rewrite (round_trip_lossy x Hfits) in Hround. injection Hround as ->. reflexivity.
Qed.

Lemma Forall2_encoded items : forall ws,
  Forall (fun item => forall w, python_to_protobuf item = Ok w -> encoded w = true) items ->
  Forall2 (fun item v => python_to_protobuf item = Ok v) items ws ->
  forallb encoded ws = true.
Proof.
  induction items as [ | item items IH ]; intros ws Hitems Hws;
    inversion Hws as [ | x v xs vs Hv Hrest ]; subst; simpl.
  - reflexivity.
  - rewrite (Forall_inv Hitems v Hv). apply IH; [ exact (Forall_inv_tail Hitems) | exact Hrest ].
Qed.

Lemma python_to_protobuf_encoded x : forall w,
  python_to_protobuf x = Ok w -> encoded w = true.
Proof.
  induction x as [ | s | z | f | b | items IH | items _ | o ]
    using PyVal_nested_ind; intros w.
  - intros [= <-]. reflexivity.
  - rewrite python_to_protobuf_cases. unfold set_str_value.
    destruct (utf8 s) eqn:Hs; [ | discriminate ]. intros [= <-]. exact Hs.
  - simpl. unfold set_int_value. destruct (in_int64 z) eqn:Hz; [ | discriminate ].
    intros [= <-]. exact Hz.
  - intros [= <-]. reflexivity.
  - rewrite python_to_protobuf_cases. unfold set_int_value.
    rewrite in_int64_b2z. intros [= <-]. apply in_int64_b2z.
  - destruct items as [ | item items ]; [ intros [= <-]; reflexivity | ].
    rewrite python_to_protobuf_list_Ok. intros (ws & -> & Hws).
    pose proof (Forall2_encoded _ _ IH Hws) as Hall.
    inversion Hws; subst. exact Hall.
  - pose proof (setitem_loop_unset items) as Hunset.
    destruct (python_to_protobuf (PyDict items)) as [ w' | e ]; [ | discriminate ].
    intros [= <-]. subst w'. reflexivity.
  - rewrite python_to_protobuf_cases.
    destruct (ob_str o) as [ text | e ]; [ | discriminate ]. simpl.
    unfold set_str_value.
    destruct (utf8 text) eqn:Hs; [ | discriminate ]. intros [= <-]. exact Hs.
Qed.

Lemma python_to_protobuf_preimage w :
  encoded w = true -> python_to_protobuf (preimage w) = Ok w.
Proof.
  induction w as [ | s | z | f | b | | values IH | fields _ ]
    using Value_nested_ind; intros Hw; try discriminate; try reflexivity.
  - simpl in Hw. simpl preimage. rewrite python_to_protobuf_cases.
    unfold set_str_value. rewrite Hw. reflexivity.
  - simpl in Hw. simpl. unfold set_int_value. rewrite Hw. reflexivity.
  - destruct values as [ | v values ]; [ discriminate | ].
    change (preimage (list_value (v :: values)))
      with (PyList (preimage v :: List.map preimage values)).
    apply python_to_protobuf_list_Ok. exists (v :: values). split; [ reflexivity | ].
    change (encoded (list_value (v :: values)))
      with (forallb encoded (v :: values)) in Hw.
    change (preimage v :: List.map preimage values)
      with (List.map preimage (v :: values)).
    revert Hw. generalize (v :: values) IH. clear.
    induction 1 as [ | y ys Hy _ IHys ]; simpl; intros Hw; [ constructor | ].
    apply andb_prop in Hw as [Hy' Hys]. constructor; [ apply Hy, Hy' | apply IHys, Hys ].
Qed.

(** X6: the wire values the encoder produces are exactly those with no
    boolean and no map variant, with integers within the [int64] field, and
    with no list variant that holds no value; each of them is the encoding
    of some native value. *)
Theorem python_to_protobuf_image (w : Value) :
  (exists x, python_to_protobuf x = Ok w) <-> encoded w = true.
Proof.
  split.
  - intros [x Hx]. apply (python_to_protobuf_encoded x w Hx).
  - intros Hw. exists (preimage w). apply python_to_protobuf_preimage, Hw.
Qed.

Lemma canonical_round_trip w :
  canonical w = true -> python_to_protobuf (protobuf_to_python w) = Ok w.
Proof.
  induction w as [ | s | z | f | b | | values IH | fields _ ]
    using Value_nested_ind; intros Hw; try discriminate; try reflexivity.
  - simpl in Hw. simpl protobuf_to_python. rewrite python_to_protobuf_cases.
    unfold set_str_value. rewrite Hw. reflexivity.
  - simpl in Hw. simpl. unfold set_int_value. rewrite Hw. reflexivity.
  - destruct values as [ | v values ]; [ discriminate | ].
    change (protobuf_to_python (list_value (v :: values)))
      with (PyList (protobuf_to_python v :: List.map protobuf_to_python values)).
    apply python_to_protobuf_list_Ok. exists (v :: values). split; [ reflexivity | ].
    change (canonical (list_value (v :: values)))
      with (forallb canonical (v :: values)) in Hw.
    change (protobuf_to_python v :: List.map protobuf_to_python values)
      with (List.map protobuf_to_python (v :: values)).
    revert Hw. generalize (v :: values) IH. clear.
    induction 1 as [ | y ys Hy _ IHys ]; simpl; intros Hw; [ constructor | ].
    apply andb_prop in Hw as [Hy' Hys]. constructor; [ apply Hy, Hy' | apply IHys, Hys ].
Qed.

Lemma round_trip_canonical w :
  python_to_protobuf (protobuf_to_python w) = Ok w -> canonical w = true.
Proof.
  induction w as [ | s | z | f | b | | values IH | fields _ ]
    using Value_nested_ind; try reflexivity; try discriminate.
  - simpl protobuf_to_python. rewrite python_to_protobuf_cases.
    unfold set_str_value. simpl canonical.
    destruct (utf8 s); [ reflexivity | discriminate ].
  - simpl. unfold set_int_value. destruct (in_int64 z); [ | discriminate ].
    reflexivity.
  - simpl protobuf_to_python. rewrite python_to_protobuf_cases.
    unfold set_int_value. rewrite in_int64_b2z. discriminate.
  - destruct values as [ | v values ]; [ discriminate | ].
    change (protobuf_to_python (list_value (v :: values)))
      with (PyList (protobuf_to_python v :: List.map protobuf_to_python values)).
    rewrite python_to_protobuf_list_Ok. intros (ws & [= <-] & Hws).
    change (canonical (list_value (v :: values)))
      with (forallb canonical (v :: values)).
    change (protobuf_to_python v :: List.map protobuf_to_python values)
      with (List.map protobuf_to_python (v :: values)) in Hws.
    revert Hws. generalize (v :: values) IH. clear.
    induction 1 as [ | y ys Hy _ IHys ]; simpl; intros Hws; [ reflexivity | ].
    inversion Hws as [ | a b l l' Hab Hrest ]; subst.
    rewrite (Hy Hab), (IHys Hrest). reflexivity.
  - simpl protobuf_to_python.
    pose proof (setitem_loop_unset
                  (fold_left
                     (fun d kv => dict_setitem (fst kv) (protobuf_to_python (snd kv)) d)
                     fields [])) as Hunset.
    destruct (python_to_protobuf _) as [ w' | e ]; [ | discriminate ].
    subst w'. discriminate.
Qed.

(** X7: decoding a wire value and encoding the result gives the wire value
    back exactly when every value in it has a variant set that is neither
    the boolean nor the map variant, its integers are within the [int64]
    field and its list variants hold at least one value. *)
Theorem wire_round_trip (w : Value) :
  python_to_protobuf (protobuf_to_python w) = Ok w <-> canonical w = true.
Proof. split; [ apply round_trip_canonical | apply canonical_round_trip ]. Qed.

(** Reading a dict after an assignment: the assigned key gives the assigned
    value, every other key what it gave before. *)
Lemma dict_get_setitem k v d k' :
  dict_get (dict_setitem k v d) k' =
  if String.eqb k' k then Some v else dict_get d k'.
Proof.
  induction d as [ | [key v'] d IH ]; simpl.
  - reflexivity.
  - destruct key as [ | s | | | | | | ]; simpl; try exact IH.
    destruct (String.eqb k s) eqn:Hks; simpl.
    + apply String.eqb_eq in Hks as ->.
      destruct (String.eqb k' s); reflexivity.
    + destruct (String.eqb k' s) eqn:Hk's; [ | exact IH ].
      apply String.eqb_eq in Hk's as ->.
      rewrite String.eqb_sym, Hks. reflexivity.
Qed.

Lemma dict_setitem_keys_distinct k v d :
  keys_distinct d = true -> keys_distinct (dict_setitem k v d) = true.
Proof.
  induction d as [ | [key v'] d IH ]; simpl; intros Hd.
  - reflexivity.
  - destruct key as [ | s | | | | | | ]; try discriminate.
    destruct (dict_get d s) eqn:Hs; [ discriminate | ].
    destruct (String.eqb k s) eqn:Hks; simpl.
    + rewrite Hs. exact Hd.
    + rewrite dict_get_setitem, String.eqb_sym, Hks, Hs. apply IH, Hd.
Qed.

Lemma dict_setitem_is_data k v d :
  is_data v = true ->
  forallb (fun kv => is_data (snd kv)) d = true ->
  forallb (fun kv => is_data (snd kv)) (dict_setitem k v d) = true.
Proof.
  intros Hv. induction d as [ | [key v'] d IH ]; simpl; intros Hd.
  - rewrite Hv. reflexivity.
  - apply andb_prop in Hd as [Hv' Hd].
    destruct key as [ | s | | | | | | ]; simpl;
      try (rewrite Hv', (IH Hd); reflexivity).
    destruct (String.eqb k s); simpl.
    + rewrite Hv, Hd. reflexivity.
    + rewrite Hv', (IH Hd). reflexivity.
Qed.

Lemma protobuf_to_python_is_data w : is_data (protobuf_to_python w) = true.
Proof.
  induction w as [ | s | z | f | b | | values IH | fields IH ]
    using Value_nested_ind; try reflexivity.
  - simpl. induction IH as [ | v values Hv _ IHvalues ]; simpl.
    + reflexivity.
    + rewrite Hv, IHvalues. reflexivity.
  - change (protobuf_to_python (map_value fields))
      with (PyDict (fold_left
                      (fun d kv => dict_setitem (fst kv) (protobuf_to_python (snd kv)) d)
                      fields [])).
    assert (Hloop : forall d,
      is_data (PyDict d) = true ->
      is_data (PyDict (fold_left
        (fun d kv => dict_setitem (fst kv) (protobuf_to_python (snd kv)) d)
        fields d)) = true).
    { induction IH as [ | [k v] fields Hv _ IHfields ]; intros d Hd.
      - exact Hd.
      - simpl fold_left. apply IHfields. simpl in Hd |- *.
        apply andb_prop in Hd as [Hkeys Hvalues].
        rewrite (dict_setitem_keys_distinct _ _ _ Hkeys).
        rewrite (dict_setitem_is_data _ _ _ Hv Hvalues). reflexivity. }
    apply Hloop. reflexivity.
Qed.

(** X8: whatever the wire value, the decoder returns plain data: no object
    of another type anywhere in it, and dicts whose keys are strings, each
    bound once. *)
Theorem protobuf_to_python_data (w : Value) :
  is_data (protobuf_to_python w) = true /\
  (forall o, protobuf_to_python w <> PyObject o).
Proof.
  split; [ apply protobuf_to_python_is_data | ].
  intros o Ho. pose proof (protobuf_to_python_is_data w) as Hdata.
  rewrite Ho in Hdata. discriminate.
Qed.

Lemma decode_fields_get fields k : forall d,
  NoDup (List.map fst fields) ->
  dict_get
    (fold_left
       (fun d kv => dict_setitem (fst kv) (protobuf_to_python (snd kv)) d)
       fields d) k =
  match fields_map fields !! k with
  | Some v => Some (protobuf_to_python v)
  | None => dict_get d k
  end.
Proof.
  unfold fields_map.
  induction fields as [ | [key v] fields IH ]; intros d Hnodup; simpl.
  - rewrite lookup_empty. reflexivity.
  - simpl in Hnodup. apply NoDup_cons in Hnodup as [Hkey Hnodup].
    rewrite (IH _ Hnodup), dict_get_setitem.
    destruct (String.eqb k key) eqn:Hk.
    + apply String.eqb_eq in Hk as ->. rewrite lookup_insert_eq.
      rewrite (not_elem_of_list_to_map_1 fields key Hkey). reflexivity.
    + apply String.eqb_neq in Hk. rewrite lookup_insert_ne by congruence.
      reflexivity.
Qed.

Lemma dict_setitem_fresh k v d :
  keys_distinct d = true -> dict_get d k = None ->
  dict_setitem k v d = (d ++ [(PyStr k, v)])%list.
Proof.
  induction d as [ | [key v'] d IH ]; simpl; intros Hd Hk.
  - reflexivity.
  - destruct key as [ | s | | | | | | ]; try discriminate.
    destruct (dict_get d s); [ discriminate | ].
    destruct (String.eqb k s); [ discriminate | ].
    rewrite (IH Hd Hk). reflexivity.
Qed.

Lemma decode_fields_length fields : forall d,
  NoDup (List.map fst fields) ->
  keys_distinct d = true ->
  (forall kv, In kv fields -> dict_get d (fst kv) = None) ->
  length
    (fold_left
       (fun d kv => dict_setitem (fst kv) (protobuf_to_python (snd kv)) d)
       fields d) =
  (length d + length fields)%nat.
Proof.
  induction fields as [ | [key v] fields IH ]; intros d Hnodup Hd Hfresh; simpl.
  - lia.
  - simpl in Hnodup. apply NoDup_cons in Hnodup as [Hkey Hnodup].
    rewrite IH.
    + rewrite (dict_setitem_fresh key _ d Hd (Hfresh (key, v) (or_introl eq_refl))).
      rewrite length_app. simpl. lia.
    + exact Hnodup.
    + apply dict_setitem_keys_distinct, Hd.
    + intros [k' v'] Hin. rewrite dict_get_setitem. simpl.
      destruct (String.eqb k' key) eqn:Hk'.
      * apply String.eqb_eq in Hk' as ->. exfalso. apply Hkey.
        apply list_elem_of_In. apply (in_map fst _ _ Hin).
      * apply (Hfresh (k', v')). right. exact Hin.
Qed.

(** X9: a map variant decodes to a dict that binds the keys of the map, and
    no other, each once, to the decoded value of its field; what the dict
    gives for a key does not depend on the order in which the entries of
    the map come. *)
Theorem protobuf_to_python_map (fields : list (string * Value)) :
  NoDup (List.map fst fields) ->
  exists items,
    protobuf_to_python (map_value fields) = PyDict items /\
    keys_distinct items = true /\
    length items = length fields /\
    (forall k, dict_get items k = protobuf_to_python <$> fields_map fields !! k) /\
    (forall fields' items',
       fields' ≡ₚ fields ->
       protobuf_to_python (map_value fields') = PyDict items' ->
       forall k, dict_get items' k = dict_get items k).
Proof.
  intros Hnodup.
  assert (Hget : forall l, NoDup (List.map fst l) -> forall k,
    dict_get
      (fold_left
         (fun d kv => dict_setitem (fst kv) (protobuf_to_python (snd kv)) d) l [])
      k = protobuf_to_python <$> fields_map l !! k).
  { intros l Hl k. rewrite (decode_fields_get l k [] Hl).
    destruct (fields_map l !! k); reflexivity. }
  exists (fold_left
            (fun d kv => dict_setitem (fst kv) (protobuf_to_python (snd kv)) d)
            fields []).
  split; [ reflexivity | ]. split; [ | split; [ | split ] ].
  - pose proof (protobuf_to_python_is_data (map_value fields)) as Hdata.
    simpl in Hdata. apply andb_prop in Hdata as [Hdistinct _]. exact Hdistinct.
  - rewrite (decode_fields_length fields [] Hnodup eq_refl); [ reflexivity | ].
    intros kv _. reflexivity.
  - apply Hget, Hnodup.
  - intros fields' items' Hperm [= <-] k.
    assert (Hnodup' : NoDup (List.map fst fields')).
    { assert (Hkeys : List.map fst fields' ≡ₚ List.map fst fields)
        by (apply Permutation_map; exact Hperm).
      rewrite Hkeys. exact Hnodup. }
    rewrite (Hget fields' Hnodup'), (Hget fields Hnodup). unfold fields_map.
    rewrite (list_to_map_proper fields' fields Hnodup' Hperm). reflexivity.
Qed.

Lemma protobuf_to_python_map_witness :
  exists items,
    protobuf_to_python (map_value [("a", int_value 1); ("b", Value_unset)]) =
      PyDict items /\
    keys_distinct items = true /\
    length items = 2%nat /\
    (forall k, dict_get items k =
               protobuf_to_python <$>
                 fields_map [("a", int_value 1); ("b", Value_unset)] !! k) /\
    (forall fields' items',
       fields' ≡ₚ [("a", int_value 1); ("b", Value_unset)] ->
       protobuf_to_python (map_value fields') = PyDict items' ->
       forall k, dict_get items' k = dict_get items k).
Proof.
  apply (protobuf_to_python_map [("a", int_value 1); ("b", Value_unset)]).
  apply (bool_decide_unpack _). vm_compute. reflexivity.
Defined.

(** ** The executor *)

Lemma dict_get_table (names : list string) (f : string -> PyVal) (id : string) :
  dict_get (List.map (fun name => (PyStr name, f name)) names) id =
  if existsb (String.eqb id) names then Some (f id) else None.
Proof.
  induction names as [ | name names IH ]; simpl.
  - reflexivity.
  - destruct (String.eqb id name) eqn:Hid; simpl.
    + apply String.eqb_eq in Hid as ->. reflexivity.
    + exact IH.
Qed.

(** X10: in the scope of a call in which neither the context nor the
    registry binds [__builtins__], a name resolves to the decoded context
    entry of that name; else to the callable registered under it; else, for
    the 23 names of the allow-list, to the built-in of that name; and any
    other name ([open], [eval], [exec], [__import__], ...) raises a
    [NameError]. *)
Theorem scope_name_resolution (self : PythonExecutorServicer)
    (request : ExecuteRequest) (id : string) :
  context request !! "__builtins__" = None ->
  go_functions self !! "__builtins__" = None ->
  load_name (exec_globals self request) id =
  match context request !! id with
  | Some value => ret (protobuf_to_python value)
  | None =>
      match go_functions self !! id with
      | Some func => ret func
      | None =>
          if String.eqb id "__builtins__" then ret (PyDict builtins_table)
          else if existsb (String.eqb id) builtin_names
          then ret (PyObject (builtin_object id))
          else raise (mkExc "NameError" ("name '" +:+ id +:+ "' is not defined"))
      end
  end.
Proof.
  intros Hcontext Hregistry. unfold load_name.
  rewrite (exec_globals_lookup self request id).
  destruct (context request !! id) as [ value | ] eqn:Hid; [ reflexivity | ].
  destruct (go_functions self !! id) as [ func | ] eqn:Hfunc; [ reflexivity | ].
  destruct (String.eqb id "__builtins__") eqn:Hname.
  - apply String.eqb_eq in Hname as ->. rewrite lookup_singleton_eq. reflexivity.
  - apply String.eqb_neq in Hname.
    rewrite lookup_singleton_ne by congruence.
    rewrite (exec_globals_lookup self request "__builtins__"), Hcontext, Hregistry.
    rewrite lookup_singleton_eq.
    unfold builtins_table.
    rewrite (dict_get_table builtin_names (fun name => PyObject (builtin_object name))).
    destruct (existsb (String.eqb id) builtin_names); reflexivity.
Qed.

Lemma scope_name_resolution_witness :
  load_name (exec_globals servicer_double request_double) "open" =
    raise (mkExc "NameError" "name 'open' is not defined") /\
  load_name (exec_globals servicer_double (request_len 7)) "double" =
    ret (PyObject (mkObj "function" "<function double>" None)).
Proof.
  split.
  - rewrite (scope_name_resolution servicer_double request_double "open")
      by reflexivity.
    reflexivity.
  - rewrite (scope_name_resolution servicer_double (request_len 7) "double")
      by reflexivity.
    reflexivity.
Defined.

(** X11: the names the scope of a call binds are [__builtins__], the names
    of the registry and the keys of the context, and no other. *)
Theorem exec_globals_dom (self : PythonExecutorServicer) (request : ExecuteRequest) :
  dom (exec_globals self request) =
  {[ "__builtins__" ]} ∪ dom (go_functions self) ∪ dom (context request).
Proof.
  apply set_eq. intros name.
  rewrite !elem_of_union, !elem_of_dom, elem_of_singleton, exec_globals_lookup.
  destruct (context request !! name) as [ value | ].
  { split; [ intros _; right; eexists; reflexivity | intros _; eexists; reflexivity ]. }
  destruct (go_functions self !! name) as [ func | ].
  { split; [ intros _; left; right; eexists; reflexivity
           | intros _; eexists; reflexivity ]. }
  destruct (decide (name = "__builtins__")) as [ -> | Hne ].
  - rewrite lookup_singleton_eq.
    split; [ intros _; left; left; reflexivity | intros _; eexists; reflexivity ].
  - rewrite lookup_singleton_ne by congruence. split.
    + intros [x Hx]. discriminate.
    + intros [ [ Heq | [x Hx] ] | [x Hx] ]; [ contradiction | discriminate | discriminate ].
Qed.

(** X12: what the scope binds under a context key is plain data, with no
    object of another type, hence no callable, anywhere in it: a context
    can hide a built-in or a registered callable, it cannot bring one in. *)
Theorem context_binds_data (self : PythonExecutorServicer)
    (request : ExecuteRequest) (key : string) (value : Value) :
  context request !! key = Some value ->
  exists data,
    exec_globals self request !! key = Some data /\
    is_data data = true /\
    forall o, data <> PyObject o.
Proof.
  intros Hentry. exists (protobuf_to_python value).
  split; [ apply exec_globals_context, Hentry | ].
  split; [ apply protobuf_to_python_is_data | ].
  intros o Ho. pose proof (protobuf_to_python_is_data value) as Hdata.
  rewrite Ho in Hdata. discriminate.
Qed.

Lemma context_binds_data_witness :
  exists data,
    exec_globals servicer_double request_double !! "double" = Some data /\
    is_data data = true /\
    forall o, data <> PyObject o.
Proof.
  apply (context_binds_data servicer_double request_double "double" (int_value 20)).
  reflexivity.
Defined.

(** X13: after [register_go_function], every call whose context has no
    entry of that name finds the callable under the name in its scope; the
    other names of the scope are as before; registering again under the
    same name replaces the callable, and registrations under different
    names do not depend on their order. *)
Theorem register_go_function_scope (self : PythonExecutorServicer)
    (name : string) (func : PyVal) (request : ExecuteRequest) :
  context request !! name = None ->
  exec_globals (register_go_function self name func) request !! name = Some func /\
  (forall other, other <> name ->
     exec_globals (register_go_function self name func) request !! other =
     exec_globals self request !! other) /\
  (forall func0,
     register_go_function (register_go_function self name func0) name func =
     register_go_function self name func) /\
  (forall name' func', name' <> name ->
     register_go_function (register_go_function self name func) name' func' =
     register_go_function (register_go_function self name' func') name func).
Proof.
  intros Hcontext. split; [ | split; [ | split ] ].
  - rewrite exec_globals_lookup, Hcontext. unfold register_go_function. simpl.
    rewrite lookup_insert_eq. reflexivity.
  - intros other Hne. rewrite !exec_globals_lookup.
    unfold register_go_function. simpl.
    rewrite lookup_insert_ne by congruence. reflexivity.
  - intros func0. unfold register_go_function. simpl.
    rewrite insert_insert_eq. reflexivity.
  - intros name' func' Hne. unfold register_go_function. simpl.
    rewrite insert_insert_ne by congruence. reflexivity.
Qed.

Lemma register_go_function_scope_witness :
  exec_globals servicer_double (request_len 7) !! "double" =
  Some (PyObject (mkObj "function" "<function double>" None)).
Proof.
  apply (register_go_function_scope __init__ "double"
           (PyObject (mkObj "function" "<function double>" None)) (request_len 7)).
  reflexivity.
Defined.





(** An exception that derives from [Exception] and whose [str()] raises:
    the caller gets what [str()] raised. *)
Example Execute_str_raises :
  snd (Execute
         (exec_raises (mkPyExc "Failure" true (inr (mkExc "RuntimeError" "no text"))))
         __init__ request_print) =
  Some (Raise (mkExc "RuntimeError" "no text")).
Proof. reflexivity. Qed.



(** The overflow of the [int64] field, end to end. *)
Example Execute_overflow :
  snd (Execute py_exec __init__ request_overflow) =
  Some (Ok (mkResponse false None [] "Value out of range: 9223372036854775808")).
Proof. vm_compute. reflexivity. Qed.

(** * Isolation of calls *)
































(** Two calls on two threads, the one with [len] bound to 7 and the other
    to 8, switched after every statement: each ends with its own
    binding. *)
Example interleave_len :
  interleave [true; false; true; false]
    (start servicer_double (request_len 7))
    (start servicer_double (request_len 8)) (host_cells servicer_double) =
  (Finished (Ok (<["__result__" := PyInt 7]>
                   (exec_globals servicer_double (request_len 7)))) "",
   Finished (Ok (<["__result__" := PyInt 8]>
                   (exec_globals servicer_double (request_len 8)))) "",
   host_cells servicer_double).
Proof. vm_compute. reflexivity. Qed.

(** With the callable that keeps a state, the thread that runs second finds
    what the first left. *)
Example interleave_remember :
  interleave [true; false; true; false]
    (start servicer_remember (request_remember 1))
    (start servicer_remember (request_remember 2))
    (host_cells servicer_remember) =
  (Finished (Ok (<["__result__" := PyNone]>
                   (exec_globals servicer_remember (request_remember 1)))) "",
   Finished (Ok (<["__result__" := PyInt 1]>
                   (exec_globals servicer_remember (request_remember 2)))) "",
   {[ "last" := PyInt 2 ]}).
Proof. vm_compute. reflexivity. Qed.
